(** * mapGen: Web-Mercator tile math and the tile compositor

    A shallow embedding of [mapgen.py] ([TileMapRenderer]) and of the
    conversion helpers of [first_tests.py].

    Conventions of the embedding:
    - a Python [float] is read as a real number ([R]); rounding, overflow
      and NaN are outside the model;
    - a Python [int] is a [Z]; [//] is floor division ([Z.div] with the
      positive divisor 256 or 2);
    - a raised exception is the [Raise] branch of [outcome];
    - a NumPy array of shape (rows, cols, 3) is a record holding the two
      leading dimensions and a function from (row, column) to a BGR pixel;
    - the tile directory is a function from a tile address (z, x, y) to the
      state of the file [<root>/z/x/y.png]. *)

From Stdlib Require Import Reals ZArith List Bool Lia Lra.
From Stdlib Require Import Ascii String DecimalString DecimalPos DecimalZ.
Import ListNotations.

Open Scope R_scope.

(** ** Exceptions and the error monad *)

Inductive exn : Type :=
| ValueError        (* math domain error, NumPy shape errors *)
| ZeroDivisionError (* float division by zero *).

Inductive outcome (A : Type) : Type :=
| Ok (a : A)
| Raise (e : exn).

Arguments Ok {A} a.
Arguments Raise {A} e.

Definition bind {A B : Type} (m : outcome A) (k : A -> outcome B) : outcome B :=
  match m with
  | Ok a => k a
  | Raise e => Raise e
  end.

Notation "x <- m ;; k" := (bind m (fun x => k))
  (at level 61, m at next level, right associativity).

(** ** The [math] module, over the reals *)

Module math.

Definition pi : R := PI.

(** [math.radians] and [math.degrees]. *)
Definition radians (d : R) : R := d * PI / 180.
Definition degrees (r : R) : R := r * 180 / PI.

(** [math.log] raises [ValueError] outside its domain. *)
Definition log (x : R) : outcome R :=
  if Rlt_dec 0 x then Ok (ln x) else Raise ValueError.

(** Float division [a / b] raises [ZeroDivisionError] when [b] is zero. *)
Definition fdiv (a b : R) : outcome R :=
  if Req_dec_T b 0 then Raise ZeroDivisionError else Ok (a / b).

End math.

(** [2 ** zoom]: an [int] power for [zoom >= 0], the float [2.0 ** zoom]
    for a negative [zoom]; both are the real number 2^zoom. *)
Definition pow2 (zoom : Z) : R := powerRZ 2 zoom.

(** [max(min(lat, c), -c)]. *)
Definition clamp (c lat : R) : R := Rmax (Rmin lat c) (- c).

(** The argument of the logarithm, [tan(phi) + 1/cos(phi)]. *)
Definition mercator_arg (phi : R) : outcome R :=
  let t := tan phi in
  s <- math.fdiv 1 (cos phi) ;;
  Ok (t + s).

(** ** mapgen.py: [TileMapRenderer.latlon_to_tile_fractional] *)

Definition MAX_LAT : R := 85.05112878.

Definition latlon_to_tile_fractional (lat lon : R) (zoom : Z) : outcome (R * R) :=
  let lat := clamp MAX_LAT lat in
  let n := pow2 zoom in
  let x := (lon + 180) / 360 * n in
  a <- mercator_arg (math.radians lat) ;;
  l <- math.log a ;;
  let y := (1 - l / math.pi) / 2 * n in
  Ok (x, y).

(** ** first_tests.py: [lonlat_to_tile_numbers], [tile_numbers_to_lonlat] *)

Definition MAX_LAT_TESTS : R := 85.05112877980659.

Definition lonlat_to_tile_numbers (lon_deg lat_deg : R) (zoom : Z) : outcome (R * R) :=
  let lat_deg := clamp MAX_LAT_TESTS lat_deg in
  let n := pow2 zoom in
  let lat_rad := math.radians lat_deg in
  let xtile := n * ((lon_deg + 180) / 360) in
  a <- mercator_arg lat_rad ;;
  l <- math.log a ;;
  let ytile := n * (1 - l / math.pi) / 2 in
  Ok (xtile, ytile).

Definition tile_numbers_to_lonlat (xtile ytile : R) (zoom : Z) : outcome (R * R) :=
  let n := pow2 zoom in
  q <- math.fdiv xtile n ;;
  let lon_deg := q * 360 - 180 in
  r <- math.fdiv (2 * ytile) n ;;
  let lat_rad := atan (sinh (math.pi * (1 - r))) in
  let lat_deg := math.degrees lat_rad in
  Ok (lon_deg, lat_deg).

(** The value the logarithm takes at a latitude given in degrees. *)
Definition merc_ln (lat : R) : R :=
  ln (tan (math.radians lat) + 1 / cos (math.radians lat)).

(** ** Python integers, slices and ranges *)

(** [int(r)] of a float: the fractional part is dropped, toward zero. *)
Definition py_int (r : R) : Z :=
  if Rle_dec 0 r then Zfloor r else Zceil r.

Local Open Scope Z_scope.

(** One bound of a slice [a:b] on an axis of length [len]: a negative index
    counts from the end, and either bound is clipped to the axis. *)
Definition slice_index (i len : Z) : Z :=
  if i <? 0 then Z.max (i + len) 0 else Z.min i len.

Definition slice_len (start stop : Z) : Z := Z.max 0 (stop - start).

(** [range(a, b)]. *)
Definition py_range (a b : Z) : list Z :=
  map (fun i => a + Z.of_nat i) (seq 0 (Z.to_nat (b - a))).

(** A [for] loop whose body may raise, over a state that the body updates. *)
Fixpoint for_each {S : Type} (xs : list Z) (body : Z -> S -> outcome S) (s : S)
  : outcome S :=
  match xs with
  | [] => Ok s
  | x :: xs' => s' <- body x s ;; for_each xs' body s'
  end.

(** ** NumPy arrays of shape (rows, cols, 3) *)

Definition pixel : Type := (Z * Z * Z)%type.

Definition black : pixel := (0, 0, 0).

Record ndarray : Type := mk_ndarray {
  rows : Z;
  cols : Z;
  px : Z -> Z -> pixel
}.

(** [np.zeros((h, w, 3))]: a negative dimension is a [ValueError]. *)
Definition np_zeros (h w : Z) : outcome ndarray :=
  if (h <? 0) || (w <? 0) then Raise ValueError
  else Ok (mk_ndarray h w (fun _ _ => black)).

(** [a[y0:y1, x0:x1]]. *)
Definition get_slice (a : ndarray) (y0 y1 x0 x1 : Z) : ndarray :=
  let r0 := slice_index y0 (rows a) in
  let r1 := slice_index y1 (rows a) in
  let c0 := slice_index x0 (cols a) in
  let c1 := slice_index x1 (cols a) in
  mk_ndarray (slice_len r0 r1) (slice_len c0 c1)
             (fun r c => px a (r0 + r) (c0 + c)).

(** An axis of length [s] broadcasts to length [t] when [s = t] or [s = 1]. *)
Definition broadcastable (s t : Z) : bool := (s =? t) || (s =? 1).

Definition broadcast_index (s i : Z) : Z := if s =? 1 then 0 else i.

(** [a[y0:y1, x0:x1] = v]: [v] is broadcast to the shape of the target
    block; a shape that does not broadcast is a [ValueError]. *)
Definition set_slice (a : ndarray) (y0 y1 x0 x1 : Z) (v : ndarray)
  : outcome ndarray :=
  let r0 := slice_index y0 (rows a) in
  let r1 := slice_index y1 (rows a) in
  let c0 := slice_index x0 (cols a) in
  let c1 := slice_index x1 (cols a) in
  let h := slice_len r0 r1 in
  let w := slice_len c0 c1 in
  if broadcastable (rows v) h && broadcastable (cols v) w then
    Ok (mk_ndarray (rows a) (cols a)
          (fun r c =>
             if (r0 <=? r) && (r <? r0 + h) && (c0 <=? c) && (c <? c0 + w)
             then px v (broadcast_index (rows v) (r - r0))
                       (broadcast_index (cols v) (c - c0))
             else px a r c))
  else Raise ValueError.

(** ** The tile directory *)

(** What lies at [<tile_root>/z/x/y.png]: nothing, a file that OpenCV cannot
    decode, or a file that decodes to an image. *)
Inductive tile_file : Type :=
| NoFile
| Undecodable
| Image (img : ndarray).

Definition tile_store : Type := Z -> Z -> Z -> tile_file.

Definition os_path_exists (f : tile_file) : bool :=
  match f with
  | NoFile => false
  | _ => true
  end.

(** [cv2.imread(path, cv2.IMREAD_COLOR)] returns [None] for a file it
    cannot read or decode; it does not raise. *)
Definition cv2_imread (f : tile_file) : option ndarray :=
  match f with
  | Image img => Some img
  | _ => None
  end.

(** ** mapgen.py: [TileMapRenderer] *)

Definition TILE_SIZE : Z := 256.

Definition _load_tile (tile_root : tile_store) (z x y : Z) : option ndarray :=
  let path := tile_root z x y in
  if negb (os_path_exists path) then None
  else cv2_imread path.

(** The local variables of [render] up to the allocation of the canvas,
    with the two crop offsets. *)
Record viewport : Type := mk_viewport {
  min_px_x : Z; min_px_y : Z;
  max_px_x : Z; max_px_y : Z;
  tile_x_min : Z; tile_y_min : Z;
  tile_x_max : Z; tile_y_max : Z;
  tiles_w : Z; tiles_h : Z;
  crop_x : Z; crop_y : Z
}.

(** Lines 74-90 and 114-115 of [render], from the centre's global pixel
    position. *)
Definition pixel_window (center_px_x center_px_y : R) (width height : Z)
  : viewport :=
  let half_w := width / 2 in
  let half_h := height / 2 in
  let min_px_x := py_int (center_px_x - IZR half_w) in
  let min_px_y := py_int (center_px_y - IZR half_h) in
  let max_px_x := min_px_x + width in
  let max_px_y := min_px_y + height in
  let tile_x_min := min_px_x / TILE_SIZE in
  let tile_y_min := min_px_y / TILE_SIZE in
  let tile_x_max := (max_px_x - 1) / TILE_SIZE in
  let tile_y_max := (max_px_y - 1) / TILE_SIZE in
  let tiles_w := tile_x_max - tile_x_min + 1 in
  let tiles_h := tile_y_max - tile_y_min + 1 in
  let crop_x := min_px_x - tile_x_min * TILE_SIZE in
  let crop_y := min_px_y - tile_y_min * TILE_SIZE in
  mk_viewport min_px_x min_px_y max_px_x max_px_y
              tile_x_min tile_y_min tile_x_max tile_y_max
              tiles_w tiles_h crop_x crop_y.

(** Lines 66-72 of [render], then [pixel_window]. *)
Definition render_viewport (center_lat center_lon : R) (zoom width height : Z)
  : outcome viewport :=
  t <- latlon_to_tile_fractional center_lat center_lon zoom ;;
  let '(tile_x, tile_y) := t in
  let center_px_x := (tile_x * IZR TILE_SIZE)%R in
  let center_px_y := (tile_y * IZR TILE_SIZE)%R in
  Ok (pixel_window center_px_x center_px_y width height).

(** Lines 99-111: the two nested loops that load and place the tiles. *)
Definition place_tiles (tile_root : tile_store) (zoom : Z) (v : viewport)
  (canvas : ndarray) : outcome ndarray :=
  for_each (py_range (tile_x_min v) (tile_x_max v + 1)) (fun tx canvas =>
    for_each (py_range (tile_y_min v) (tile_y_max v + 1)) (fun ty canvas =>
      match _load_tile tile_root zoom tx ty with
      | None => Ok canvas
      | Some tile =>
          let cx := (tx - tile_x_min v) * TILE_SIZE in
          let cy := (ty - tile_y_min v) * TILE_SIZE in
          set_slice canvas cy (cy + TILE_SIZE) cx (cx + TILE_SIZE) tile
      end) canvas) canvas.

(** Lines 92-122: canvas, tiles, crop. *)
Definition compose (tile_root : tile_store) (zoom : Z) (v : viewport)
  (width height : Z) : outcome ndarray :=
  canvas <- np_zeros (tiles_h v * TILE_SIZE) (tiles_w v * TILE_SIZE) ;;
  canvas <- place_tiles tile_root zoom v canvas ;;
  let result :=
    get_slice canvas (crop_y v) (crop_y v + height) (crop_x v) (crop_x v + width) in
  Ok result.

Definition render (tile_root : tile_store)
  (center_lat center_lon : R) (zoom width height : Z) : outcome ndarray :=
  v <- render_viewport center_lat center_lon zoom width height ;;
  compose tile_root zoom v width height.

(** ** Vocabulary of the statements *)

(** The shape (rows, cols) of an array. *)
Definition has_shape (a : ndarray) (h w : Z) : Prop :=
  rows a = h /\ cols a = w.

(** Every pixel inside the array's shape is (0, 0, 0). *)
Definition all_zero (a : ndarray) : Prop :=
  forall r c, 0 <= r < rows a -> 0 <= c < cols a -> px a r c = black.

(** Every tile file that decodes holds a 256 x 256 image. *)
Definition tiles_256 (tile_root : tile_store) : Prop :=
  forall z x y img, tile_root z x y = Image img ->
    has_shape img TILE_SIZE TILE_SIZE.

(** A directory with no tile file at all. *)
Definition empty_store : tile_store := fun _ _ _ => NoFile.

(** A 256 x 256 tile with a colour gradient, and a directory that holds it
    at every address. *)
Definition gradient_tile : ndarray :=
  mk_ndarray TILE_SIZE TILE_SIZE (fun r c => (r mod 256, c mod 256, 128)).

Definition full_store : tile_store := fun _ _ _ => Image gradient_tile.

(** A directory whose only file, at address (0, 0, 0), does not decode. *)
Definition corrupt_store : tile_store :=
  fun z x y =>
    if (z =? 0) && (x =? 0) && (y =? 0) then Undecodable else NoFile.

(** The directory with its undecodable files removed. *)
Definition forget_undecodable (tile_root : tile_store) : tile_store :=
  fun z x y =>
    match tile_root z x y with
    | Undecodable => NoFile
    | f => f
    end.

(** The pixel that a tile directory holds at a global pixel position of a
    zoom level: the pixel of the tile that covers the position, black where
    no tile loads. *)
Definition global_px (tile_root : tile_store) (zoom gx gy : Z) : pixel :=
  match _load_tile tile_root zoom (gx / TILE_SIZE) (gy / TILE_SIZE) with
  | Some tile => px tile (gy mod TILE_SIZE) (gx mod TILE_SIZE)
  | None => black
  end.

(** The canvas while the tiles are placed: every pixel already shows the
    directory's pixel, or is still black and belongs to a tile that is not
    [done]. *)
Definition painted (tile_root : tile_store) (zoom : Z) (v : viewport)
  (done : Z -> Z -> Prop) (canvas : ndarray) : Prop :=
  has_shape canvas (tiles_h v * TILE_SIZE) (tiles_w v * TILE_SIZE) /\
  forall r c, 0 <= r < tiles_h v * TILE_SIZE -> 0 <= c < tiles_w v * TILE_SIZE ->
    px canvas r c =
      global_px tile_root zoom (tile_x_min v * TILE_SIZE + c)
                               (tile_y_min v * TILE_SIZE + r) \/
    (px canvas r c = black /\
     ~ done (tile_x_min v + c / TILE_SIZE) (tile_y_min v + r / TILE_SIZE)).

(** A directory that holds the gradient tile at (0, 0) of every zoom and
    nothing else. *)
Definition origin_store : tile_store :=
  fun _ x y => if (x =? 0) && (y =? 0) then Image gradient_tile else NoFile.

(** A directory whose tiles are 100 x 100 images. *)
Definition thumbnail_store : tile_store :=
  fun _ _ _ => Image (mk_ndarray 100 100 (fun _ _ => black)).


Local Close Scope Z_scope.

(** ** Paths: [str], [os.path.join], [_tile_path] *)

(** A Python [str] is the list of its characters. [str(n)] of an [int] is
    its decimal writing, with a leading minus sign below zero. *)
Definition py_str (n : Z) : list ascii :=
  list_ascii_of_string (NilZero.string_of_int (Z.to_int n)).

Definition sep : ascii := "/"%char.

Definition startswith_sep (s : list ascii) : bool :=
  match s with
  | c :: _ => Ascii.eqb c sep
  | [] => false
  end.

Fixpoint endswith_sep (s : list ascii) : bool :=
  match s with
  | [] => false
  | c :: s' =>
      match s' with
      | [] => Ascii.eqb c sep
      | _ :: _ => endswith_sep s'
      end
  end.

Definition is_empty (s : list ascii) : bool :=
  match s with
  | [] => true
  | _ :: _ => false
  end.

(** One step of [posixpath.join]: a component that starts with the
    separator replaces the path; otherwise it is appended, after a separator
    unless the path is empty or already ends with one. *)
Definition join_step (path b : list ascii) : list ascii :=
  if startswith_sep b then b
  else if is_empty path || endswith_sep path then path ++ b
  else path ++ sep :: b.

Definition os_path_join (a : list ascii) (p : list (list ascii)) : list ascii :=
  fold_left join_step p a.

Definition dot_png : list ascii := list_ascii_of_string ".png".

(** mapgen.py, [TileMapRenderer._tile_path]. *)
Definition _tile_path (tile_root : list ascii) (z x y : Z) : list ascii :=
  os_path_join tile_root [py_str z; py_str x; py_str y ++ dot_png].

(** A string without the separator. *)
Definition no_sep (s : list ascii) : Prop := Forall (fun c => c <> sep) s.

(** What [os.path.join] puts before the first component: the root, with a
    separator unless the root is empty or ends with one. *)
Definition root_prefix (tile_root : list ascii) : list ascii :=
  if is_empty tile_root || endswith_sep tile_root then tile_root
  else tile_root ++ [sep].

(** The regular files of a file system, by path. *)
Definition filesystem : Type := list ascii -> tile_file.


(** ** no-bullshit-download.py *)

Module downloader.

Definition TILE_URL : list ascii :=
  list_ascii_of_string
    "https://services.arcgisonline.com/ArcGIS/rest/services/World_Imagery/MapServer/tile/".

(** [TILE_URL.format(z=z, x=x, y=y)]: the template ends in [{z}/{y}/{x}]. *)
Definition TILE_URL_format (z x y : Z) : list ascii :=
  TILE_URL ++ py_str z ++ sep :: py_str y ++ sep :: py_str x.

(** The module's settings: the bounding box, the zoom range and the output
    directory. *)
Record config : Type := mk_config {
  OUTPUT_DIR : list ascii;
  MIN_LAT : R;
  MIN_LON : R;
  MAX_LAT : R;
  MAX_LON : R;
  MIN_ZOOM : Z;
  MAX_ZOOM : Z
}.

Definition settings : config :=
  mk_config (list_ascii_of_string "tiles")
            52.249531 20.749179 52.271303 20.782088 8 18.

Definition latlon_to_tile (lat lon : R) (zoom : Z) : outcome (Z * Z) :=
  let lat := clamp 85.05112878 lat in
  let n := pow2 zoom in
  let x := py_int ((lon + 180) / 360 * n) in
  a <- mercator_arg (math.radians lat) ;;
  l <- math.log a ;;
  let y := py_int ((1 - l / math.pi) / 2 * n) in
  Ok (x, y).

(** What a server sends back: bytes that decode to an image, or not. *)
Inductive content : Type :=
| Garbage
| Png (img : ndarray).

Definition file_of (c : content) : tile_file :=
  match c with
  | Garbage => Undecodable
  | Png img => Image img
  end.

(** [requests.get] raises (no connection, timeout) or returns a response
    with a status code and a body. *)
Inductive response : Type :=
| ConnectionError
| Response (status_code : Z) (body : content).

Definition server : Type := list ascii -> response.

(** [r.raise_for_status()] raises for the codes 400 to 599. *)
Definition raise_for_status (status_code : Z) : bool :=
  ((400 <=? status_code) && (status_code <? 600))%Z.

(** What the script prints: the header of a zoom level, and the message of
    a failed tile (the exception's text is left out). *)
Inductive line : Type :=
| ZoomLine (z total : Z)
| FailedLine (z x y : Z).

(** The files, the printed lines (latest first) and, for each progress bar
    that was closed, its total and its count, latest first. *)
Record world : Type := mk_world {
  files : filesystem;
  stdout : list line;
  bars : list (Z * Z)
}.

Definition print (l : line) (w : world) : world :=
  mk_world (files w) (l :: stdout w) (bars w).

(** [with open(filename, "wb") as f: f.write(content)]. *)
Definition write_file (filename : list ascii) (c : content) (w : world) : world :=
  mk_world
    (fun p => if list_eq_dec ascii_dec p filename then file_of c else files w p)
    (stdout w) (bars w).


(** [download_tile]; the directories made by [os.makedirs] are not part of
    the model. *)
Definition download_tile (srv : server) (cfg : config) (z x y : Z) (w : world)
  : world :=
  let url := TILE_URL_format z x y in
  let path := os_path_join (OUTPUT_DIR cfg) [py_str z; py_str x] in
  let filename := os_path_join path [py_str y ++ dot_png] in
  if os_path_exists (files w filename) then w
  else
    match srv url with
    | ConnectionError => print (FailedLine z x y) w
    | Response status_code body =>
        if raise_for_status status_code then print (FailedLine z x y) w
        else write_file filename body w
    end.




End downloader.

(** ** Vocabulary of the statements on the downloader *)

(** A world without files, and a server that answers every request with
    the gradient tile. *)
Definition blank_world : downloader.world :=
  downloader.mk_world (fun _ => NoFile) [] [].

Definition gradient_server : downloader.server :=
  fun _ => downloader.Response 200 (downloader.Png gradient_tile).

(** A server that never answers. *)
Definition dead_server : downloader.server :=
  fun _ => downloader.ConnectionError.






(** ** Facts about the transform *)

Lemma pow2_pos (zoom : Z) : 0 < pow2 zoom.
Proof. unfold pow2. apply powerRZ_lt. lra. Qed.

Lemma clamp_bounds (c lat : R) : 0 <= c -> - c <= clamp c lat <= c.
Proof.
  intros Hc. unfold clamp, Rmax, Rmin.
  destruct (Rle_dec lat c); destruct (Rle_dec _ _); lra.
Qed.

Lemma clamp_id (c lat : R) : - c <= lat <= c -> clamp c lat = lat.
Proof.
  intros H. unfold clamp, Rmax, Rmin.
  destruct (Rle_dec lat c); destruct (Rle_dec _ _); lra.
Qed.

(** Any latitude of at most 90 degrees in absolute value, 90 excluded, is an
    angle strictly inside (-PI/2, PI/2). *)
Lemma radians_in_band (c d : R) :
  0 <= c < 90 -> - c <= d <= c ->
  - (PI / 2) < math.radians d < PI / 2.
Proof.
  intros Hc Hd. unfold math.radians.
  pose proof PI_RGT_0 as Hpi.
  split; nra.
Qed.

Lemma sin_gt_m1 (phi : R) : - (PI / 2) < phi < PI / 2 -> -1 < sin phi.
Proof.
  intros H.
  pose proof (cos_gt_0 phi (proj1 H) (proj2 H)) as Hc.
  pose proof (sin2_cos2 phi) as Hs. unfold Rsqr in Hs.
  pose proof (SIN_bound phi) as [Hlo _].
  destruct Hlo as [Hlt | Heq]; [exact Hlt |].
  exfalso. rewrite <- Heq in Hs. nra.
Qed.

(** Inside the band the logarithm's argument is (1 + sin) / cos. *)
Lemma mercator_arg_ok (phi : R) :
  - (PI / 2) < phi < PI / 2 ->
  mercator_arg phi = Ok (tan phi + 1 / cos phi) /\ 0 < tan phi + 1 / cos phi.
Proof.
  intros H.
  pose proof (cos_gt_0 phi (proj1 H) (proj2 H)) as Hc.
  pose proof (sin_gt_m1 phi H) as Hs.
  split.
  - unfold mercator_arg, math.fdiv.
    destruct (Req_dec_T (cos phi) 0) as [E | _]; [lra | reflexivity].
  - unfold tan.
    replace (sin phi / cos phi + 1 / cos phi) with ((sin phi + 1) / cos phi)
      by (field; lra).
    apply Rdiv_lt_0_compat; lra.
Qed.

Lemma log_ok (x : R) : 0 < x -> math.log x = Ok (ln x).
Proof.
  intros H. unfold math.log. destruct (Rlt_dec 0 x); [reflexivity | contradiction].
Qed.

Lemma MAX_LAT_range : 0 <= MAX_LAT < 90.
Proof. unfold MAX_LAT. lra. Qed.

Lemma MAX_LAT_TESTS_range : 0 <= MAX_LAT_TESTS < 90.
Proof. unfold MAX_LAT_TESTS. lra. Qed.

(** [latlon_to_tile_fractional] in closed form: it always returns. *)
Lemma latlon_to_tile_fractional_eq (lat lon : R) (zoom : Z) :
  latlon_to_tile_fractional lat lon zoom =
  Ok ((lon + 180) / 360 * pow2 zoom,
      (1 - merc_ln (clamp MAX_LAT lat) / PI) / 2 * pow2 zoom).
Proof.
  unfold latlon_to_tile_fractional.
  pose proof (clamp_bounds MAX_LAT lat (proj1 MAX_LAT_range)) as Hb.
  pose proof (radians_in_band _ _ MAX_LAT_range Hb) as Hr.
  destruct (mercator_arg_ok _ Hr) as [Ha Hpos].
  rewrite Ha. cbn [bind]. rewrite (log_ok _ Hpos). cbn [bind].
  reflexivity.
Qed.

Lemma lonlat_to_tile_numbers_eq (lon lat : R) (zoom : Z) :
  lonlat_to_tile_numbers lon lat zoom =
  Ok (pow2 zoom * ((lon + 180) / 360),
      pow2 zoom * (1 - merc_ln (clamp MAX_LAT_TESTS lat) / PI) / 2).
Proof.
  unfold lonlat_to_tile_numbers.
  pose proof (clamp_bounds MAX_LAT_TESTS lat (proj1 MAX_LAT_TESTS_range)) as Hb.
  pose proof (radians_in_band _ _ MAX_LAT_TESTS_range Hb) as Hr.
  destruct (mercator_arg_ok _ Hr) as [Ha Hpos].
  rewrite Ha. cbn [bind]. rewrite (log_ok _ Hpos). cbn [bind].
  reflexivity.
Qed.

Lemma tile_numbers_to_lonlat_eq (xtile ytile : R) (zoom : Z) :
  tile_numbers_to_lonlat xtile ytile zoom =
  Ok (xtile / pow2 zoom * 360 - 180,
      math.degrees (atan (sinh (PI * (1 - 2 * ytile / pow2 zoom))))).
Proof.
  unfold tile_numbers_to_lonlat, math.fdiv.
  pose proof (pow2_pos zoom) as Hn.
  destruct (Req_dec_T (pow2 zoom) 0) as [E | _]; [lra |].
  reflexivity.
Qed.

(** sinh undoes the Mercator logarithm: sinh (ln (tan + sec)) = tan. *)
Lemma sinh_merc (phi : R) :
  - (PI / 2) < phi < PI / 2 ->
  sinh (ln (tan phi + 1 / cos phi)) = tan phi.
Proof.
  intros H.
  pose proof (cos_gt_0 phi (proj1 H) (proj2 H)) as Hc.
  destruct (mercator_arg_ok phi H) as [_ Hpos].
  pose proof (sin_gt_m1 phi H) as Hs.
  pose proof (sin2_cos2 phi) as Hsc. unfold Rsqr in Hsc.
  unfold sinh. rewrite exp_Ropp, exp_ln by exact Hpos.
  unfold tan in *.
  field_simplify_eq; [| split; [lra | nra]].
  nra.
Qed.

(** The round trip on the latitude: atan (sinh (ln (tan + sec))) is the
    angle itself, so the inverse returns the clamped latitude. *)
Lemma degrees_radians (d : R) : math.degrees (math.radians d) = d.
Proof.
  unfold math.degrees, math.radians.
  pose proof PI_RGT_0. field. lra.
Qed.

Lemma lat_round_trip (c lat : R) (zoom : Z) :
  0 <= c < 90 -> - c <= lat <= c ->
  math.degrees
    (atan (sinh (PI * (1 - 2 * (pow2 zoom * (1 - merc_ln lat / PI) / 2) / pow2 zoom))))
  = lat.
Proof.
  intros Hc Hlat.
  pose proof (radians_in_band c lat Hc Hlat) as Hr.
  pose proof (pow2_pos zoom) as Hn.
  pose proof PI_RGT_0 as Hpi.
  replace (PI * (1 - 2 * (pow2 zoom * (1 - merc_ln lat / PI) / 2) / pow2 zoom))
    with (merc_ln lat) by (field; lra).
  unfold merc_ln. rewrite (sinh_merc _ Hr), (atan_tan _ Hr).
  apply degrees_radians.
Qed.

Lemma clamp_near (lat : R) :
  - MAX_LAT <= lat <= MAX_LAT ->
  Rabs (clamp MAX_LAT_TESTS lat - lat) <= 1 / 1000000.
Proof.
  intros H. unfold clamp, Rmax, Rmin, MAX_LAT, MAX_LAT_TESTS in *.
  apply Rabs_le.
  destruct (Rle_dec lat _); destruct (Rle_dec _ _); lra.
Qed.

(** ** Facts about integers, slices and loops *)


Lemma py_int_IZR (k : Z) : py_int (IZR k) = k.
Proof.
  unfold py_int. destruct (Rle_dec 0 (IZR k)).
  - apply ZfloorZ.
  - unfold Zceil. rewrite <- opp_IZR, ZfloorZ. lia.
Qed.

Local Open Scope Z_scope.

Lemma py_range_In (a b x : Z) : In x (py_range a b) -> a <= x < b.
Proof.
  unfold py_range. rewrite in_map_iff.
  intros [i [<- Hi]]. apply in_seq in Hi. lia.
Qed.

Lemma for_each_inv {S : Type} (P : S -> Prop) (xs : list Z)
  (body : Z -> S -> outcome S) :
  (forall x s, In x xs -> P s -> exists s', body x s = Ok s' /\ P s') ->
  forall s, P s -> exists s', for_each xs body s = Ok s' /\ P s'.
Proof.
  induction xs as [| x xs IH]; intros Hbody s Hs; cbn [for_each].
  - exists s. split; [reflexivity | exact Hs].
  - destruct (Hbody x s (or_introl eq_refl) Hs) as [s1 [E1 H1]].
    rewrite E1. cbn [bind].
    apply IH; [| exact H1].
    intros y t Hy. apply Hbody. right. exact Hy.
Qed.

Lemma for_each_ext {S : Type} (xs : list Z) (f g : Z -> S -> outcome S) :
  (forall x s, f x s = g x s) ->
  forall s, for_each xs f s = for_each xs g s.
Proof.
  intros Hfg. induction xs as [| x xs IH]; intros s; cbn [for_each].
  - reflexivity.
  - rewrite Hfg. destruct (g x s); cbn [bind]; [apply IH | reflexivity].
Qed.

Lemma slice_index_inside (i len : Z) : 0 <= i <= len -> slice_index i len = i.
Proof.
  intros H. unfold slice_index.
  destruct (Z.ltb_spec i 0); lia.
Qed.

(** A slice [a : a + n] has length [n]. *)
Lemma slice_len_span (a n : Z) : 0 <= n -> slice_len a (a + n) = n.
Proof. intros Hn. unfold slice_len. lia. Qed.

(** The arithmetic of one axis of the window: [m] is the window's first
    pixel and [w] its extent. *)
Lemma axis_geometry (m w : Z) :
  0 <= w ->
  let tmin := m / TILE_SIZE in
  let tmax := (m + w - 1) / TILE_SIZE in
  let crop := m - tmin * TILE_SIZE in
  0 <= crop < TILE_SIZE /\
  crop + w <= (tmax - tmin + 1) * TILE_SIZE /\
  0 <= tmax - tmin + 1.
Proof.
  intros Hw. unfold TILE_SIZE. cbv zeta.
  pose proof (Z.div_mod m 256 ltac:(lia)) as E1.
  pose proof (Z.mod_pos_bound m 256 ltac:(lia)) as B1.
  pose proof (Z.div_mod (m + w - 1) 256 ltac:(lia)) as E2.
  pose proof (Z.mod_pos_bound (m + w - 1) 256 ltac:(lia)) as B2.
  lia.
Qed.

(** A window of positive extent needs at least one tile. *)
Lemma axis_tiles_pos (m w : Z) :
  0 < w -> 1 <= (m + w - 1) / TILE_SIZE - m / TILE_SIZE + 1.
Proof.
  intros Hw. unfold TILE_SIZE.
  pose proof (Z.div_le_mono m (m + w - 1) 256 ltac:(lia) ltac:(lia)).
  lia.
Qed.

(** ** Facts about the compositor *)

Lemma load_tile_shape (tile_root : tile_store) (z x y : Z) (img : ndarray) :
  tiles_256 tile_root ->
  _load_tile tile_root z x y = Some img ->
  has_shape img TILE_SIZE TILE_SIZE.
Proof.
  intros Hs. unfold _load_tile.
  destruct (tile_root z x y) as [| | i] eqn:E; cbn; try discriminate.
  intros [= <-]. exact (Hs _ _ _ _ E).
Qed.

Lemma load_tile_empty (z x y : Z) : _load_tile empty_store z x y = None.
Proof. reflexivity. Qed.

Lemma np_zeros_ok (h w : Z) :
  0 <= h -> 0 <= w -> np_zeros h w = Ok (mk_ndarray h w (fun _ _ => black)).
Proof.
  intros Hh Hw. unfold np_zeros.
  destruct (Z.ltb_spec h 0); destruct (Z.ltb_spec w 0); cbn; try lia.
  reflexivity.
Qed.

(** Writing a 256 x 256 tile on a block inside the canvas succeeds and
    keeps the canvas's shape. *)
Lemma set_slice_tile (a tile : ndarray) (cy cx : Z) :
  has_shape tile TILE_SIZE TILE_SIZE ->
  0 <= cy -> cy + TILE_SIZE <= rows a ->
  0 <= cx -> cx + TILE_SIZE <= cols a ->
  exists a', set_slice a cy (cy + TILE_SIZE) cx (cx + TILE_SIZE) tile = Ok a' /\
             has_shape a' (rows a) (cols a).
Proof.
  intros [Hr Hc] Hy0 Hy1 Hx0 Hx1. unfold set_slice.
  rewrite !slice_index_inside by (unfold TILE_SIZE in *; lia).
  rewrite !slice_len_span by (unfold TILE_SIZE; lia).
  rewrite Hr, Hc. unfold broadcastable. rewrite Z.eqb_refl. cbn [orb andb].
  eexists. split; [reflexivity |]. split; reflexivity.
Qed.

Section Placement.

Variable tile_root : tile_store.
Variable zoom : Z.
Variable v : viewport.

Hypothesis tiles_w_eq : tiles_w v = tile_x_max v - tile_x_min v + 1.
Hypothesis tiles_h_eq : tiles_h v = tile_y_max v - tile_y_min v + 1.

(** With well-shaped tiles both loops run to their end and the canvas
    keeps its shape. *)
Lemma place_tiles_shape (canvas : ndarray) :
  tiles_256 tile_root ->
  has_shape canvas (tiles_h v * TILE_SIZE) (tiles_w v * TILE_SIZE) ->
  exists canvas', place_tiles tile_root zoom v canvas = Ok canvas' /\
    has_shape canvas' (tiles_h v * TILE_SIZE) (tiles_w v * TILE_SIZE).
Proof.
  intros Hstore Hcanvas. unfold place_tiles.
  apply for_each_inv
    with (P := fun c => has_shape c (tiles_h v * TILE_SIZE) (tiles_w v * TILE_SIZE));
    [| exact Hcanvas].
  intros tx c Htx Hc. apply py_range_In in Htx.
  apply for_each_inv
    with (P := fun c => has_shape c (tiles_h v * TILE_SIZE) (tiles_w v * TILE_SIZE));
    [| exact Hc].
  intros ty c' Hty [Hrows Hcols]. apply py_range_In in Hty.
  destruct (_load_tile tile_root zoom tx ty) as [tile |] eqn:E.
  - pose proof (load_tile_shape _ _ _ _ _ Hstore E) as Htile.
    destruct (set_slice_tile c' tile
                ((ty - tile_y_min v) * TILE_SIZE) ((tx - tile_x_min v) * TILE_SIZE)
                Htile) as [a' [Ha' [Hr' Hc']]];
      try (rewrite ?Hrows, ?Hcols, ?tiles_w_eq, ?tiles_h_eq; unfold TILE_SIZE; lia).
    exists a'. split; [exact Ha' |].
    split; congruence.
  - exists c'. split; [reflexivity | split; assumption].
Qed.

(** When no tile loads, the loops leave the canvas as it is. *)
Lemma place_tiles_none (canvas : ndarray) :
  (forall x y, _load_tile tile_root zoom x y = None) ->
  place_tiles tile_root zoom v canvas = Ok canvas.
Proof.
  intros Hnone. unfold place_tiles.
  destruct (for_each_inv (fun c => c = canvas)
              (py_range (tile_x_min v) (tile_x_max v + 1))
              (fun tx c =>
                 for_each (py_range (tile_y_min v) (tile_y_max v + 1))
                   (fun ty c' =>
                      match _load_tile tile_root zoom tx ty with
                      | None => Ok c'
                      | Some tile =>
                          set_slice c'
                            ((ty - tile_y_min v) * TILE_SIZE)
                            ((ty - tile_y_min v) * TILE_SIZE + TILE_SIZE)
                            ((tx - tile_x_min v) * TILE_SIZE)
                            ((tx - tile_x_min v) * TILE_SIZE + TILE_SIZE) tile
                      end) c)) with (s := canvas) as [c [E ->]];
    [| reflexivity | exact E].
  intros tx c _ ->.
  apply for_each_inv with (P := fun c => c = canvas); [| reflexivity].
  intros ty c' _ ->. rewrite Hnone. exists canvas. split; reflexivity.
Qed.

End Placement.

(** Two directories that load the same tiles give the same canvas. *)
Lemma place_tiles_ext (fs1 fs2 : tile_store) (zoom : Z) (v : viewport)
  (canvas : ndarray) :
  (forall x y, _load_tile fs1 zoom x y = _load_tile fs2 zoom x y) ->
  place_tiles fs1 zoom v canvas = place_tiles fs2 zoom v canvas.
Proof.
  intros H. unfold place_tiles.
  apply for_each_ext. intros tx c.
  apply for_each_ext. intros ty c'.
  rewrite H. reflexivity.
Qed.

(** ** Facts about the viewport and about [render] *)

Lemma render_viewport_eq (center_lat center_lon : R) (zoom width height : Z) :
  render_viewport center_lat center_lon zoom width height =
  Ok (pixel_window
        ((center_lon + 180) / 360 * pow2 zoom * IZR TILE_SIZE)%R
        ((1 - merc_ln (clamp MAX_LAT center_lat) / PI) / 2 * pow2 zoom * IZR TILE_SIZE)%R
        width height).
Proof.
  unfold render_viewport. rewrite latlon_to_tile_fractional_eq. reflexivity.
Qed.

(** Both crop offsets are in [0, 256) and the crop rectangle lies inside
    the canvas, for any window of non-negative extent. *)
Lemma pixel_window_geometry (cx cy : R) (width height : Z) :
  0 <= width -> 0 <= height ->
  let v := pixel_window cx cy width height in
  (0 <= crop_x v < TILE_SIZE /\ crop_x v + width <= tiles_w v * TILE_SIZE /\
   0 <= tiles_w v) /\
  (0 <= crop_y v < TILE_SIZE /\ crop_y v + height <= tiles_h v * TILE_SIZE /\
   0 <= tiles_h v).
Proof.
  intros Hw Hh. cbn.
  split.
  - exact (axis_geometry (py_int (cx - IZR (width / 2))) width Hw).
  - exact (axis_geometry (py_int (cy - IZR (height / 2))) height Hh).
Qed.

Lemma get_slice_crop (canvas : ndarray) (cy cx height width : Z) :
  0 <= cy -> 0 <= height -> cy + height <= rows canvas ->
  0 <= cx -> 0 <= width -> cx + width <= cols canvas ->
  get_slice canvas cy (cy + height) cx (cx + width) =
  mk_ndarray height width (fun r c => px canvas (cy + r) (cx + c)).
Proof.
  intros. unfold get_slice.
  rewrite !slice_index_inside by lia.
  rewrite !slice_len_span by lia.
  reflexivity.
Qed.

Lemma compose_shape (tile_root : tile_store) (zoom : Z) (cx cy : R)
  (width height : Z) :
  0 <= width -> 0 <= height -> tiles_256 tile_root ->
  exists img,
    compose tile_root zoom (pixel_window cx cy width height) width height = Ok img /\
    has_shape img height width.
Proof.
  intros Hw Hh Hstore.
  destruct (pixel_window_geometry cx cy width height Hw Hh)
    as [[Hcx [Hfx Htw]] [Hcy [Hfy Hth]]].
  set (v := pixel_window cx cy width height) in *.
  unfold compose.
  rewrite np_zeros_ok by (unfold TILE_SIZE; lia). cbn [bind].
  destruct (place_tiles_shape tile_root zoom v eq_refl eq_refl
              (mk_ndarray (tiles_h v * TILE_SIZE) (tiles_w v * TILE_SIZE)
                          (fun _ _ => black))
              Hstore (conj eq_refl eq_refl))
    as [canvas' [E [Hr Hc]]].
  rewrite E. cbn [bind].
  rewrite get_slice_crop by (rewrite ?Hr, ?Hc; lia).
  eexists. split; [reflexivity | split; reflexivity].
Qed.

Lemma compose_blank (tile_root : tile_store) (zoom : Z) (cx cy : R)
  (width height : Z) :
  0 <= width -> 0 <= height ->
  (forall x y, _load_tile tile_root zoom x y = None) ->
  compose tile_root zoom (pixel_window cx cy width height) width height =
  Ok (mk_ndarray height width (fun _ _ => black)).
Proof.
  intros Hw Hh Hnone.
  destruct (pixel_window_geometry cx cy width height Hw Hh)
    as [[Hcx [Hfx Htw]] [Hcy [Hfy Hth]]].
  set (v := pixel_window cx cy width height) in *.
  unfold compose.
  rewrite np_zeros_ok by (unfold TILE_SIZE; lia). cbn [bind].
  rewrite (place_tiles_none tile_root zoom v _ Hnone). cbn [bind].
  rewrite get_slice_crop by (cbn [rows cols]; lia).
  reflexivity.
Qed.

(** [render] on well-shaped tiles: for any zoom and any non-negative width
    and height it returns an image of that many columns and rows. *)
Lemma render_shape (tile_root : tile_store) (center_lat center_lon : R)
  (zoom width height : Z) :
  0 <= width -> 0 <= height -> tiles_256 tile_root ->
  exists img,
    render tile_root center_lat center_lon zoom width height = Ok img /\
    has_shape img height width.
Proof.
  intros Hw Hh Hstore. unfold render.
  rewrite render_viewport_eq. cbn [bind].
  apply compose_shape; assumption.
Qed.

(** [render] when no tile loads: a black image of the requested shape. *)
Lemma render_blank (tile_root : tile_store) (center_lat center_lon : R)
  (zoom width height : Z) :
  0 <= width -> 0 <= height ->
  (forall x y, _load_tile tile_root zoom x y = None) ->
  render tile_root center_lat center_lon zoom width height =
  Ok (mk_ndarray height width (fun _ _ => black)).
Proof.
  intros Hw Hh Hnone. unfold render.
  rewrite render_viewport_eq. cbn [bind].
  apply compose_blank; assumption.
Qed.

Lemma all_zero_black (h w : Z) : all_zero (mk_ndarray h w (fun _ _ => black)).
Proof. intros r c _ _. reflexivity. Qed.

Lemma tiles_256_full : tiles_256 full_store.
Proof. intros z x y img [= <-]. split; reflexivity. Qed.

Lemma load_tile_corrupt (z x y : Z) : _load_tile corrupt_store z x y = None.
Proof.
  unfold _load_tile, corrupt_store.
  destruct ((z =? 0) && (x =? 0) && (y =? 0)); reflexivity.
Qed.

Lemma load_tile_forget (tile_root : tile_store) (z x y : Z) :
  _load_tile (forget_undecodable tile_root) z x y = _load_tile tile_root z x y.
Proof.
  unfold _load_tile, forget_undecodable.
  destruct (tile_root z x y); reflexivity.
Qed.

Local Close Scope Z_scope.

(** On the equator the logarithm vanishes: the centre is at half height. *)
Lemma merc_ln_equator : merc_ln (clamp MAX_LAT 0) = 0.
Proof.
  rewrite clamp_id by (unfold MAX_LAT; lra).
  unfold merc_ln, math.radians.
  replace (0 * PI / 180) with 0 by lra.
  rewrite tan_0, cos_0.
  replace (0 + 1 / 1) with 1 by lra.
  apply ln_1.
Qed.

(** The viewport of [render(0, 0, 0, 200, 200)]: the single tile (0, 0) of
    zoom 0, entered at pixel (28, 28). *)
Lemma viewport_origin_zoom0 :
  render_viewport 0 0 0 200 200 =
  Ok (mk_viewport 28 28 228 228 0 0 0 0 1 1 28 28).
Proof.
  rewrite render_viewport_eq, merc_ln_equator.
  unfold pixel_window.
  replace ((0 + 180) / 360 * pow2 0 * IZR TILE_SIZE - IZR (200 / 2)) with (IZR 28)
    by (unfold pow2, TILE_SIZE; cbn; lra).
  replace ((1 - 0 / PI) / 2 * pow2 0 * IZR TILE_SIZE - IZR (200 / 2)) with (IZR 28)
    by (unfold pow2, TILE_SIZE; cbn; pose proof PI_RGT_0; field; lra).
  rewrite py_int_IZR. reflexivity.
Qed.



(** ** The model on concrete inputs *)

Example py_range_ex : py_range (-1) 2 = [-1; 0; 1]%Z.
Proof. reflexivity. Qed.

Example py_range_empty : py_range 3 3 = [].
Proof. reflexivity. Qed.

Example slice_index_ex :
  (slice_index (-2) 10 = 8 /\ slice_index 12 10 = 10 /\ slice_index (-12) 10 = 0)%Z.
Proof. repeat split. Qed.

Example np_zeros_negative : np_zeros (-768) 256 = Raise ValueError.
Proof. reflexivity. Qed.

(** A tile of the wrong size does not broadcast to a 256 x 256 block. *)
Example set_slice_mismatch :
  set_slice (mk_ndarray 256 256 (fun _ _ => black)) 0 256 0 256
            (mk_ndarray 100 100 (fun _ _ => black)) = Raise ValueError.
Proof. reflexivity. Qed.

(** A 200 x 200 window entered at pixel (200, 200) spans four tiles: its
    first pixel is pixel (200, 200) of tile (0, 0), and pixel (56, 56) of the
    result is the first pixel of tile (1, 1). *)
Example compose_four_tiles :
  match compose full_store 17
          (mk_viewport 200 200 400 400 0 0 1 1 2 2 200 200) 200 200 with
  | Ok img => Some (rows img, cols img, px img 0 0, px img 55 55, px img 56 56)
  | Raise _ => None
  end = Some (200, 200, (200, 200, 128), (255, 255, 128), (0, 0, 128))%Z.
Proof. vm_compute. reflexivity. Qed.

(** A width of -1000 is not checked by [render]; it reaches [np.zeros] as a
    negative number of columns. *)
Example render_width_minus_1000 :
  render empty_store 0 0 0 (-1000) 200 = Raise ValueError.
Proof.
  unfold render. rewrite render_viewport_eq, merc_ln_equator.
  unfold pixel_window.
  replace ((0 + 180) / 360 * pow2 0 * IZR TILE_SIZE - IZR (-1000 / 2)) with (IZR 628)
    by (unfold pow2, TILE_SIZE; cbn; lra).
  replace ((1 - 0 / PI) / 2 * pow2 0 * IZR TILE_SIZE - IZR (200 / 2)) with (IZR 28)
    by (unfold pow2, TILE_SIZE; cbn; pose proof PI_RGT_0; field; lra).
  rewrite !py_int_IZR. reflexivity.
Qed.

(** * The claims *)

(** ** Output size *)



(** ** Crop offsets *)

(** C2. For every centre, zoom and positive width and height, the viewport
    that [render] computes has [tile_x_min = min_px_x // 256],
    [tile_x_max = (max_px_x - 1) // 256],
    [crop_x = min_px_x - tile_x_min * 256] (the same on y); both crop offsets
    lie in [0, 256), and the crop rectangle
    [crop_y, crop_y + height) x [crop_x, crop_x + width) lies inside the
    canvas of [tiles_h * 256] rows and [tiles_w * 256] columns. *)
Theorem crop_inside_canvas (center_lat center_lon : R) (zoom width height : Z) :
  (0 < width)%Z -> (0 < height)%Z ->
  exists v,
    render_viewport center_lat center_lon zoom width height = Ok v /\
    (tile_x_min v = min_px_x v / 256 /\ tile_x_max v = (max_px_x v - 1) / 256 /\
     tile_y_min v = min_px_y v / 256 /\ tile_y_max v = (max_px_y v - 1) / 256 /\
     tiles_w v = tile_x_max v - tile_x_min v + 1 /\
     tiles_h v = tile_y_max v - tile_y_min v + 1 /\
     crop_x v = min_px_x v - tile_x_min v * 256 /\
     crop_y v = min_px_y v - tile_y_min v * 256 /\
     0 <= crop_x v < 256 /\ 0 <= crop_y v < 256 /\
     crop_y v + height <= tiles_h v * 256 /\
     crop_x v + width <= tiles_w v * 256)%Z.
Proof.
  intros Hw Hh.
  rewrite render_viewport_eq. eexists. split; [reflexivity |].
  match goal with
  | |- context [pixel_window ?cx ?cy width height] =>
      destruct (pixel_window_geometry cx cy width height ltac:(lia) ltac:(lia))
        as [[Hcx [Hfx _]] [Hcy [Hfy _]]]
  end.
  unfold TILE_SIZE in *.
  repeat split; try reflexivity; lia.
Qed.

Lemma crop_inside_canvas_witness :
  exists v,
    render_viewport 52.266862 20.750421 17 200 200 = Ok v /\
    (tile_x_min v = min_px_x v / 256 /\ tile_x_max v = (max_px_x v - 1) / 256 /\
     tile_y_min v = min_px_y v / 256 /\ tile_y_max v = (max_px_y v - 1) / 256 /\
     tiles_w v = tile_x_max v - tile_x_min v + 1 /\
     tiles_h v = tile_y_max v - tile_y_min v + 1 /\
     crop_x v = min_px_x v - tile_x_min v * 256 /\
     crop_y v = min_px_y v - tile_y_min v * 256 /\
     0 <= crop_x v < 256 /\ 0 <= crop_y v < 256 /\
     crop_y v + 200 <= tiles_h v * 256 /\
     crop_x v + 200 <= tiles_w v * 256)%Z.
Proof.
  apply crop_inside_canvas; lia.
Defined.

(** ** Missing tiles *)

(** C3. For every centre, zoom and positive width and height, when no tile
    of the directory loads, [render] signals no error and returns an image of
    [height] rows and [width] columns whose pixels are all zero. *)
Theorem render_missing_tiles (tile_root : tile_store) (center_lat center_lon : R)
  (zoom width height : Z) :
  (forall z x y, _load_tile tile_root z x y = None) ->
  (0 < width)%Z -> (0 < height)%Z ->
  exists img,
    render tile_root center_lat center_lon zoom width height = Ok img /\
    has_shape img height width /\ all_zero img.
Proof.
  intros Hnone Hw Hh.
  rewrite render_blank by (try lia; intros; apply Hnone).
  eexists. split; [reflexivity |].
  split; [split; reflexivity | apply all_zero_black].
Qed.

Lemma render_missing_tiles_witness :
  exists img,
    render empty_store 52.266862 20.750421 17 200 200 = Ok img /\
    has_shape img 200 200 /\ all_zero img.
Proof.
  apply render_missing_tiles; [exact load_tile_empty | lia | lia].
Defined.

(** ** Round trip *)

(** C4. For every point whose latitude is in [-85.05112878, 85.05112878],
    and every zoom (0 to 20 in particular), [lonlat_to_tile_numbers] followed
    by [tile_numbers_to_lonlat] gives back the latitude and the longitude
    within 1e-6 degrees. Over the reals the longitude comes back exactly and
    the latitude comes back clamped to 85.05112877980659, less than 2e-10
    away. *)
Theorem tile_round_trip (lon lat : R) (zoom : Z) :
  - 85.05112878 <= lat <= 85.05112878 ->
  exists x y lon' lat',
    lonlat_to_tile_numbers lon lat zoom = Ok (x, y) /\
    tile_numbers_to_lonlat x y zoom = Ok (lon', lat') /\
    Rabs (lat' - lat) <= 1 / 1000000 /\
    Rabs (lon' - lon) <= 1 / 1000000.
Proof.
  intros Hlat.
  do 4 eexists.
  split; [apply lonlat_to_tile_numbers_eq |].
  split; [apply tile_numbers_to_lonlat_eq |].
  pose proof (pow2_pos zoom) as Hn.
  split.
  - rewrite (lat_round_trip MAX_LAT_TESTS _ zoom MAX_LAT_TESTS_range)
      by (apply clamp_bounds, MAX_LAT_TESTS_range).
    apply clamp_near. unfold MAX_LAT. lra.
  - replace (pow2 zoom * ((lon + 180) / 360) / pow2 zoom * 360 - 180 - lon)
      with 0 by (field; lra).
    rewrite Rabs_R0. lra.
Qed.

Lemma tile_round_trip_witness :
  exists x y lon' lat',
    lonlat_to_tile_numbers 20.750421 52.266862 12 = Ok (x, y) /\
    tile_numbers_to_lonlat x y 12 = Ok (lon', lat') /\
    Rabs (lat' - 52.266862) <= 1 / 1000000 /\
    Rabs (lon' - 20.750421) <= 1 / 1000000.
Proof.
  apply tile_round_trip. lra.
Defined.

(** ** Pixel window *)



(** ** Totality of the forward transform *)


(** ** Longitude and tile x *)


(** ** The two forward transforms *)

(** C10. For every latitude in [-85.05112877980659, 85.05112877980659],
    every longitude and every zoom, [latlon_to_tile_fractional lat lon zoom]
    and [lonlat_to_tile_numbers lon lat zoom] return the same pair. *)
Theorem forward_transforms_agree (lat lon : R) (zoom : Z) :
  - 85.05112877980659 <= lat <= 85.05112877980659 ->
  latlon_to_tile_fractional lat lon zoom = lonlat_to_tile_numbers lon lat zoom.
Proof.
  intros Hlat.
  rewrite latlon_to_tile_fractional_eq, lonlat_to_tile_numbers_eq.
  rewrite !clamp_id by (unfold MAX_LAT, MAX_LAT_TESTS; lra).
  apply f_equal, f_equal2; [field | field; apply PI_neq0].
Qed.

Lemma forward_transforms_agree_witness :
  latlon_to_tile_fractional 52.266862 20.750421 12 =
  lonlat_to_tile_numbers 20.750421 52.266862 12.
Proof.
  apply forward_transforms_agree. lra.
Defined.

(** ** Argument checking *)

(** C5, as stated, fails: with a negative zoom, with a zero width and with a
    zero height, [render] over an empty directory signals nothing and
    returns an image. *)
Lemma render_rejects_nothing :
  render empty_store 0 0 (-1) 200 200 = Ok (mk_ndarray 200 200 (fun _ _ => black)) /\
  render empty_store 0 0 0 0 200 = Ok (mk_ndarray 200 0 (fun _ _ => black)) /\
  render empty_store 0 0 0 200 0 = Ok (mk_ndarray 0 200 (fun _ _ => black)).
Proof.
  repeat split; apply render_blank; try lia; intros; apply load_tile_empty.
Qed.

(** C5, amended. [render] checks none of its arguments: for a negative zoom,
    a zero width or a zero height, with width and height not negative and
    256 x 256 tiles, it signals no error and returns an image of [height]
    rows and [width] columns, empty when one of them is zero. *)
Theorem render_accepts_degenerate_arguments (tile_root : tile_store)
  (center_lat center_lon : R) (zoom width height : Z) :
  tiles_256 tile_root ->
  (zoom < 0 \/ width = 0 \/ height = 0)%Z ->
  (0 <= width)%Z -> (0 <= height)%Z ->
  exists img,
    render tile_root center_lat center_lon zoom width height = Ok img /\
    has_shape img height width.
Proof.
  intros Hstore _ Hw Hh.
  apply render_shape; assumption.
Qed.

Lemma render_accepts_degenerate_arguments_witness :
  exists img,
    render full_store 52.266862 20.750421 (-1) 0 200 = Ok img /\
    has_shape img 200 0.
Proof.
  apply render_accepts_degenerate_arguments;
    [exact tiles_256_full | lia | lia | lia].
Defined.

(** ** Undecodable tiles *)

(** C6, as stated, fails: the single tile under the viewport of
    [render(0, 0, 0, 200, 200)] is tile (0, 0) of zoom 0; its file exists and
    does not decode; [render] signals nothing and returns a black image. *)
Lemma undecodable_tile_rendered_blank :
  corrupt_store 0%Z 0%Z 0%Z = Undecodable /\
  os_path_exists (corrupt_store 0%Z 0%Z 0%Z) = true /\
  render_viewport 0 0 0 200 200 = Ok (mk_viewport 28 28 228 228 0 0 0 0 1 1 28 28) /\
  render corrupt_store 0 0 0 200 200 = Ok (mk_ndarray 200 200 (fun _ _ => black)).
Proof.
  split; [reflexivity |].
  split; [reflexivity |].
  split; [exact viewport_origin_zoom0 |].
  apply render_blank; try lia. intros; apply load_tile_corrupt.
Qed.

(** C6, amended. A tile whose file exists and does not decode is handled as
    an absent tile: [_load_tile] returns nothing for it, and [render] gives
    the result it gives on the directory without the undecodable files, its
    block left blank and no error signalled on its account. *)
Theorem undecodable_tile_as_absent (tile_root : tile_store)
  (center_lat center_lon : R) (zoom width height : Z) :
  (forall x y, tile_root zoom x y = Undecodable ->
               _load_tile tile_root zoom x y = None) /\
  render tile_root center_lat center_lon zoom width height =
  render (forget_undecodable tile_root) center_lat center_lon zoom width height.
Proof.
  split.
  - intros x y E. unfold _load_tile. rewrite E. reflexivity.
  - unfold render.
    destruct (render_viewport center_lat center_lon zoom width height) as [v | e];
      cbn [bind]; [| reflexivity].
    unfold compose.
    destruct (np_zeros _ _) as [canvas | e]; cbn [bind]; [| reflexivity].
    rewrite (place_tiles_ext (forget_undecodable tile_root) tile_root);
      [reflexivity |].
    intros x y. apply load_tile_forget.
Qed.

(** * Further properties of the tile math *)



Lemma clamp_monotone (c a b : R) : a <= b -> clamp c a <= clamp c b.
Proof.
  intros Hab. unfold clamp, Rmax, Rmin.
  repeat (destruct (Rle_dec _ _)); lra.
Qed.


(** The logarithm grows with the latitude. *)
Lemma merc_ln_increasing (c lat1 lat2 : R) :
  0 <= c < 90 -> - c <= lat1 -> lat1 < lat2 -> lat2 <= c ->
  merc_ln lat1 < merc_ln lat2.
Proof.
  intros Hc H1 H12 H2.
  pose proof (radians_in_band c lat1 Hc ltac:(lra)) as Hr1.
  pose proof (radians_in_band c lat2 Hc ltac:(lra)) as Hr2.
  assert (math.radians lat1 < math.radians lat2) as Hlt.
  { unfold math.radians. pose proof PI_RGT_0. nra. }
  assert (tan (math.radians lat1) < tan (math.radians lat2)) as Htan.
  { apply tan_increasing; lra. }
  rewrite <- (sinh_merc _ Hr1), <- (sinh_merc _ Hr2) in Htan.
  fold (merc_ln lat1) in Htan. fold (merc_ln lat2) in Htan.
  destruct (Rlt_le_dec (merc_ln lat1) (merc_ln lat2)) as [Hok | Hbad];
    [exact Hok |].
  exfalso. destruct Hbad as [Hbad | Heq].
  - pose proof (sinh_lt _ _ Hbad). lra.
  - rewrite Heq in Htan. lra.
Qed.

Lemma merc_ln_monotone (c lat1 lat2 : R) :
  0 <= c < 90 -> - c <= lat1 -> lat1 <= lat2 -> lat2 <= c ->
  merc_ln lat1 <= merc_ln lat2.
Proof.
  intros Hc H1 [Hlt | ->] H2.
  - left. apply (merc_ln_increasing c); assumption.
  - right. reflexivity.
Qed.

(** sinh is one-to-one. *)
Lemma sinh_inj (a b : R) : sinh a = sinh b -> a = b.
Proof.
  intros H.
  destruct (Rtotal_order a b) as [Hlt | [Heq | Hgt]]; [| exact Heq |].
  - pose proof (sinh_lt _ _ Hlt). lra.
  - pose proof (sinh_lt _ _ Hgt). lra.
Qed.

(** The logarithm at the angle atan (sinh t) is t. *)
Lemma merc_atan_sinh (t : R) :
  ln (tan (atan (sinh t)) + 1 / cos (atan (sinh t))) = t.
Proof.
  pose proof (atan_bound (sinh t)) as Hb.
  assert (- (PI / 2) < atan (sinh t) < PI / 2) as Hr by lra.
  apply sinh_inj. rewrite (sinh_merc _ Hr). apply tan_atan.
Qed.

Lemma radians_degrees (r : R) : math.radians (math.degrees r) = r.
Proof.
  unfold math.degrees, math.radians.
  pose proof PI_RGT_0. field. lra.
Qed.

(** The downloader's [latlon_to_tile] in closed form. *)
Lemma latlon_to_tile_eq (lat lon : R) (zoom : Z) :
  downloader.latlon_to_tile lat lon zoom =
  Ok (py_int ((lon + 180) / 360 * pow2 zoom),
      py_int ((1 - merc_ln (clamp MAX_LAT lat) / PI) / 2 * pow2 zoom)).
Proof.
  unfold downloader.latlon_to_tile. fold MAX_LAT.
  pose proof (clamp_bounds MAX_LAT lat (proj1 MAX_LAT_range)) as Hb.
  pose proof (radians_in_band _ _ MAX_LAT_range Hb) as Hr.
  destruct (mercator_arg_ok _ Hr) as [Ha Hpos].
  rewrite Ha. cbn [bind]. rewrite (log_ok _ Hpos). cbn [bind].
  reflexivity.
Qed.


(** ** Round trips *)


(** The forward transform of first_tests.py undoes the inverse: when the
    latitude that [tile_numbers_to_lonlat] returns is inside
    [-85.05112877980659, 85.05112877980659], [lonlat_to_tile_numbers] gives
    back the fractional tile coordinates. *)
Theorem tile_numbers_round_trip (xtile ytile lon lat : R) (zoom : Z) :
  tile_numbers_to_lonlat xtile ytile zoom = Ok (lon, lat) ->
  - 85.05112877980659 <= lat <= 85.05112877980659 ->
  lonlat_to_tile_numbers lon lat zoom = Ok (xtile, ytile).
Proof.
  rewrite tile_numbers_to_lonlat_eq. intros [= <- <-] Hband.
  rewrite lonlat_to_tile_numbers_eq.
  rewrite clamp_id by (unfold MAX_LAT_TESTS; lra).
  unfold merc_ln. rewrite radians_degrees, merc_atan_sinh.
  pose proof (pow2_pos zoom) as Hn. pose proof PI_RGT_0 as Hpi.
  apply f_equal, f_equal2; field; lra.
Qed.

Lemma tile_numbers_round_trip_witness :
  lonlat_to_tile_numbers 0 0 0 = Ok (1 / 2, 1 / 2).
Proof.
  apply tile_numbers_round_trip; [| lra].
  rewrite tile_numbers_to_lonlat_eq.
  replace (PI * (1 - 2 * (1 / 2) / pow2 0)) with 0 by (unfold pow2; cbn; lra).
  rewrite sinh_0, atan_0.
  apply f_equal, f_equal2; unfold math.degrees, pow2; cbn; lra.
Defined.

(** ** Order and symmetry *)



(** Over all latitudes and longitudes the fractional tile x does not fall
    when the longitude grows and the fractional tile y does not grow when the
    latitude grows; beyond the band y stays at its value on the band's
    edge. *)
Theorem tile_coordinates_monotone (lat1 lat2 lon1 lon2 : R) (zoom : Z) :
  lat1 <= lat2 -> lon1 <= lon2 ->
  exists x1 y1 x2 y2,
    latlon_to_tile_fractional lat1 lon1 zoom = Ok (x1, y1) /\
    latlon_to_tile_fractional lat2 lon2 zoom = Ok (x2, y2) /\
    x1 <= x2 /\ y2 <= y1.
Proof.
  intros Hlat Hlon.
  do 4 eexists.
  split; [apply latlon_to_tile_fractional_eq |].
  split; [apply latlon_to_tile_fractional_eq |].
  pose proof (pow2_pos zoom) as Hn. pose proof PI_RGT_0 as Hpi.
  pose proof (clamp_bounds MAX_LAT lat1 (proj1 MAX_LAT_range)) as Hb1.
  pose proof (clamp_bounds MAX_LAT lat2 (proj1 MAX_LAT_range)) as Hb2.
  pose proof (merc_ln_monotone MAX_LAT _ _ MAX_LAT_range (proj1 Hb1)
                (clamp_monotone MAX_LAT _ _ Hlat) (proj2 Hb2)) as Hm.
  split.
  - apply Rmult_le_compat_r; lra.
  - apply Rmult_le_compat_r; [lra |].
    apply Rmult_le_compat_r; [lra |].
    apply Rplus_le_compat_l, Ropp_le_contravar.
    apply Rmult_le_compat_r; [left; apply Rinv_0_lt_compat, Hpi | exact Hm].
Qed.

Lemma tile_coordinates_monotone_witness :
  exists x1 y1 x2 y2,
    latlon_to_tile_fractional 85.05112878 (-180) 3 = Ok (x1, y1) /\
    latlon_to_tile_fractional 90 180 3 = Ok (x2, y2) /\
    x1 <= x2 /\ y2 <= y1.
Proof.
  apply tile_coordinates_monotone; lra.
Defined.




(** * Further properties of the compositor *)

Local Open Scope Z_scope.

Lemma py_range_nil (a b : Z) : b <= a -> py_range a b = [].
Proof.
  intros H. unfold py_range.
  replace (Z.to_nat (b - a)) with 0%nat by lia. reflexivity.
Qed.

Lemma py_range_cons (a b : Z) : a < b -> py_range a b = a :: py_range (a + 1) b.
Proof.
  intros H. unfold py_range.
  replace (Z.to_nat (b - a)) with (S (Z.to_nat (b - (a + 1)))) by lia.
  cbn [seq map]. f_equal; [lia |].
  rewrite <- seq_shift, map_map.
  apply map_ext. intros i. lia.
Qed.

Lemma py_range_length (a b : Z) : List.length (py_range a b) = Z.to_nat (b - a).
Proof. unfold py_range. rewrite length_map, length_seq. reflexivity. Qed.

Lemma In_py_range (a b x : Z) : a <= x < b -> In x (py_range a b).
Proof.
  intros H. unfold py_range. apply in_map_iff.
  exists (Z.to_nat (x - a)). split; [lia |].
  apply in_seq. lia.
Qed.

(** A loop over [range(a, b)] with an invariant indexed by the next value
    of the loop variable. *)
Lemma for_each_range {S : Type} (I : Z -> S -> Prop)
  (body : Z -> S -> outcome S) (b : Z) :
  (forall i s, i < b -> I i s -> exists s', body i s = Ok s' /\ I (i + 1) s') ->
  forall a s, a <= b -> I a s ->
  exists s', for_each (py_range a b) body s = Ok s' /\ I b s'.
Proof.
  intros Hstep a s Hab.
  remember (Z.to_nat (b - a)) as n eqn:En.
  revert a s Hab En.
  induction n as [| n IH]; intros a s Hab En Ha.
  - assert (a = b) as -> by lia.
    rewrite py_range_nil by lia. exists s. split; [reflexivity | exact Ha].
  - rewrite py_range_cons by lia. cbn [for_each].
    destruct (Hstep a s ltac:(lia) Ha) as [s1 [E1 H1]].
    rewrite E1. cbn [bind].
    apply IH; [lia | lia | exact H1].
Qed.

(** What a loop keeps when it ends without an exception. *)
Lemma for_each_ok_inv {S : Type} (P : S -> Prop) (xs : list Z)
  (body : Z -> S -> outcome S) :
  (forall x s s', P s -> body x s = Ok s' -> P s') ->
  forall s s', P s -> for_each xs body s = Ok s' -> P s'.
Proof.
  intros Hbody. induction xs as [| x xs IH]; intros s s' Hs; cbn [for_each].
  - intros [= <-]. exact Hs.
  - destruct (body x s) as [s1 | e] eqn:E; cbn [bind]; [| discriminate].
    apply IH. exact (Hbody _ _ _ Hs E).
Qed.

(** A loop raises when one of its steps raises on every state that the loop
    can reach; the loop's only exception is [ValueError]. *)
Lemma for_each_fails {S : Type} (P : S -> Prop) (xs : list Z)
  (body : Z -> S -> outcome S) (x0 : Z) :
  In x0 xs ->
  (forall x s s', P s -> body x s = Ok s' -> P s') ->
  (forall x s e, body x s = Raise e -> e = ValueError) ->
  (forall s, P s -> body x0 s = Raise ValueError) ->
  forall s, P s -> for_each xs body s = Raise ValueError.
Proof.
  intros Hin Hkeep Hexn Hbad.
  induction xs as [| x xs IH]; intros s Hs; [contradiction |].
  cbn [for_each].
  destruct Hin as [-> | Hin].
  - rewrite (Hbad s Hs). reflexivity.
  - destruct (body x s) as [s1 | e] eqn:E; cbn [bind].
    + apply (IH Hin). exact (Hkeep _ _ _ Hs E).
    + rewrite (Hexn _ _ _ E). reflexivity.
Qed.

Lemma for_each_raise_only {S : Type} (xs : list Z) (body : Z -> S -> outcome S) :
  (forall x s e, body x s = Raise e -> e = ValueError) ->
  forall s e, for_each xs body s = Raise e -> e = ValueError.
Proof.
  intros Hexn. induction xs as [| x xs IH]; intros s e; cbn [for_each].
  - discriminate.
  - destruct (body x s) as [s1 | e1] eqn:E; cbn [bind].
    + apply IH.
    + intros [= <-]. exact (Hexn _ _ _ E).
Qed.

(** Two loops whose bodies agree on the values of the loop variable. *)
Lemma for_each_ext_in {S : Type} (xs : list Z) (f g : Z -> S -> outcome S) :
  (forall x s, In x xs -> f x s = g x s) ->
  forall s, for_each xs f s = for_each xs g s.
Proof.
  induction xs as [| x xs IH]; intros Hfg s; cbn [for_each].
  - reflexivity.
  - rewrite (Hfg x s (or_introl eq_refl)).
    destruct (g x s); cbn [bind]; [| reflexivity].
    apply IH. intros y t Hy. apply Hfg. right. exact Hy.
Qed.

Lemma set_slice_shape (a v a' : ndarray) (y0 y1 x0 x1 : Z) :
  set_slice a y0 y1 x0 x1 v = Ok a' -> rows a' = rows a /\ cols a' = cols a.
Proof.
  unfold set_slice.
  destruct (broadcastable _ _ && broadcastable _ _); [| discriminate].
  intros [= <-]. split; reflexivity.
Qed.

Lemma set_slice_raise (a v : ndarray) (y0 y1 x0 x1 : Z) (e : exn) :
  set_slice a y0 y1 x0 x1 v = Raise e -> e = ValueError.
Proof.
  unfold set_slice.
  destruct (broadcastable _ _ && broadcastable _ _); [discriminate |].
  intros [= <-]. reflexivity.
Qed.

Lemma global_px_canvas (tile_root : tile_store) (zoom x0 y0 r c : Z) :
  global_px tile_root zoom (x0 * TILE_SIZE + c) (y0 * TILE_SIZE + r) =
  match _load_tile tile_root zoom (x0 + c / TILE_SIZE) (y0 + r / TILE_SIZE) with
  | Some tile => px tile (r mod TILE_SIZE) (c mod TILE_SIZE)
  | None => black
  end.
Proof.
  unfold global_px, TILE_SIZE.
  rewrite !Z.div_add_l by lia.
  rewrite !(Z.add_comm (_ * 256)), !Z.mod_add by lia.
  reflexivity.
Qed.

Section Painting.

Variable tile_root : tile_store.
Variable zoom : Z.
Variable v : viewport.

Hypothesis tiles_ok : tiles_256 tile_root.
Hypothesis tiles_w_eq : tiles_w v = tile_x_max v - tile_x_min v + 1.
Hypothesis tiles_h_eq : tiles_h v = tile_y_max v - tile_y_min v + 1.

(** One step of the inner loop: the tile (tx, ty) becomes done. *)
Lemma paint_tile (done : Z -> Z -> Prop) (canvas : ndarray) (tx ty : Z) :
  tile_x_min v <= tx <= tile_x_max v ->
  tile_y_min v <= ty <= tile_y_max v ->
  painted tile_root zoom v done canvas ->
  exists canvas',
    match _load_tile tile_root zoom tx ty with
    | None => Ok canvas
    | Some tile =>
        set_slice canvas
          ((ty - tile_y_min v) * TILE_SIZE) ((ty - tile_y_min v) * TILE_SIZE + TILE_SIZE)
          ((tx - tile_x_min v) * TILE_SIZE) ((tx - tile_x_min v) * TILE_SIZE + TILE_SIZE)
          tile
    end = Ok canvas' /\
    painted tile_root zoom v (fun a b => done a b \/ (a = tx /\ b = ty)) canvas'.
Proof.
  intros Hx Hy [[Hrows Hcols] Hpx].
  destruct (_load_tile tile_root zoom tx ty) as [tile |] eqn:E.
  - destruct (load_tile_shape _ _ _ _ _ tiles_ok E) as [Htr Htc].
    unfold set_slice.
    rewrite !slice_index_inside
      by (rewrite ?Hrows, ?Hcols, ?tiles_w_eq, ?tiles_h_eq; unfold TILE_SIZE; lia).
    rewrite !slice_len_span by (unfold TILE_SIZE; lia).
    rewrite Htr, Htc. unfold broadcastable. rewrite Z.eqb_refl. cbn [orb andb].
    eexists. split; [reflexivity |].
    split; [split; [exact Hrows | exact Hcols] |].
    intros r c Hr Hc. cbn [px].
    destruct ((_ <=? r) && (r <? _) && (_ <=? c) && (c <? _)) eqn:Hin.
    + left. rewrite global_px_canvas.
      apply andb_prop in Hin as [Hin Hc2]. apply andb_prop in Hin as [Hin Hc1].
      apply andb_prop in Hin as [Hr1 Hr2].
      apply Z.leb_le in Hr1, Hc1. apply Z.ltb_lt in Hr2, Hc2.
      unfold TILE_SIZE in *.
      replace (tile_x_min v + c / 256) with tx
        by (Z.div_mod_to_equations; lia).
      replace (tile_y_min v + r / 256) with ty
        by (Z.div_mod_to_equations; lia).
      rewrite E. unfold broadcast_index.
      change (256 =? 1) with false. cbv iota.
      f_equal; Z.div_mod_to_equations; lia.
    + destruct (Hpx r c Hr Hc) as [Hg | [Hb Hnd]]; [left; exact Hg | right].
      split; [exact Hb |].
      intros [Hd | [Ha Hb']]; [exact (Hnd Hd) |].
      assert ((((ty - tile_y_min v) * TILE_SIZE <=? r)
               && (r <? (ty - tile_y_min v) * TILE_SIZE + TILE_SIZE)
               && ((tx - tile_x_min v) * TILE_SIZE <=? c)
               && (c <? (tx - tile_x_min v) * TILE_SIZE + TILE_SIZE)) = true) as Ht.
      { unfold TILE_SIZE in *.
        repeat (apply andb_true_intro; split);
          try apply Z.leb_le; try apply Z.ltb_lt;
          Z.div_mod_to_equations; lia. }
      rewrite Ht in Hin. discriminate.
  - exists canvas. split; [reflexivity |].
    split; [split; [exact Hrows | exact Hcols] |].
    intros r c Hr Hc.
    destruct (Hpx r c Hr Hc) as [Hg | [Hb Hnd]]; [left; exact Hg |].
    destruct (Z.eq_dec (tile_x_min v + c / TILE_SIZE) tx) as [Ea | Na];
      [destruct (Z.eq_dec (tile_y_min v + r / TILE_SIZE) ty) as [Eb | Nb] |].
    + left. rewrite global_px_canvas, Ea, Eb, E. exact Hb.
    + right. split; [exact Hb |]. intros [Hd | [_ Hb']]; [exact (Hnd Hd) | contradiction].
    + right. split; [exact Hb |]. intros [Hd | [Ha' _]]; [exact (Hnd Hd) | contradiction].
Qed.

(** The set of done tiles may shrink, as far as the canvas's tiles go. *)
Lemma painted_weaken (done done' : Z -> Z -> Prop) (canvas : ndarray) :
  (forall a b, tile_x_min v <= a <= tile_x_max v ->
               tile_y_min v <= b <= tile_y_max v -> done' a b -> done a b) ->
  painted tile_root zoom v done canvas ->
  painted tile_root zoom v done' canvas.
Proof.
  intros Hsub [Hshape Hpx]. split; [exact Hshape |].
  intros r c Hr Hc.
  destruct (Hpx r c Hr Hc) as [Hg | [Hb Hnd]]; [left; exact Hg | right].
  split; [exact Hb |]. intros Hd. apply Hnd, Hsub; [| | exact Hd];
    rewrite ?tiles_w_eq, ?tiles_h_eq in *; unfold TILE_SIZE in *;
    Z.div_mod_to_equations; lia.
Qed.

Ltac weaken_with H :=
  (eapply painted_weaken; [| exact H]); cbn beta; intros; lia.

(** Both loops: every tile of the canvas is done. *)
Lemma place_tiles_painted (canvas : ndarray) :
  0 <= tiles_w v -> 0 <= tiles_h v ->
  painted tile_root zoom v (fun _ _ => False) canvas ->
  exists canvas',
    place_tiles tile_root zoom v canvas = Ok canvas' /\
    painted tile_root zoom v (fun _ _ => True) canvas'.
Proof.
  intros Hw Hh Hstart. unfold place_tiles.
  destruct (for_each_range
              (fun i c => painted tile_root zoom v (fun a _ => a < i) c
                          /\ tile_x_min v <= i)
              (fun tx c =>
                 for_each (py_range (tile_y_min v) (tile_y_max v + 1))
                   (fun ty c' =>
                      match _load_tile tile_root zoom tx ty with
                      | None => Ok c'
                      | Some tile =>
                          set_slice c'
                            ((ty - tile_y_min v) * TILE_SIZE)
                            ((ty - tile_y_min v) * TILE_SIZE + TILE_SIZE)
                            ((tx - tile_x_min v) * TILE_SIZE)
                            ((tx - tile_x_min v) * TILE_SIZE + TILE_SIZE) tile
                      end) c)
              (tile_x_max v + 1)) with (a := tile_x_min v) (s := canvas)
    as [canvas' [E [Hend _]]].
  - intros tx c Htx [Hc Hlo].
    destruct (for_each_range
                (fun j c' => painted tile_root zoom v
                               (fun a b => a < tx \/ (a = tx /\ b < j)) c'
                             /\ tile_y_min v <= j)
                (fun ty c' =>
                   match _load_tile tile_root zoom tx ty with
                   | None => Ok c'
                   | Some tile =>
                       set_slice c'
                         ((ty - tile_y_min v) * TILE_SIZE)
                         ((ty - tile_y_min v) * TILE_SIZE + TILE_SIZE)
                         ((tx - tile_x_min v) * TILE_SIZE)
                         ((tx - tile_x_min v) * TILE_SIZE + TILE_SIZE) tile
                   end)
                (tile_y_max v + 1)) with (a := tile_y_min v) (s := c)
      as [c1 [E1 [H1 _]]].
    + intros ty c' Hty [Hc' Hlo'].
      destruct (paint_tile _ c' tx ty ltac:(lia) ltac:(lia) Hc') as [c2 [E2 H2]].
      exists c2. split; [exact E2 |]. split; [| lia].
      weaken_with H2.
    + lia.
    + split; [| lia].
      weaken_with Hc.
    + exists c1. split; [exact E1 |]. split; [| lia].
      weaken_with H1.
  - lia.
  - split; [| lia].
    weaken_with Hstart.
  - exists canvas'. split; [exact E |].
    weaken_with Hend.
Qed.

End Painting.

(** ** Where the pixels come from *)

(** With 256 x 256 tiles, the pixel at row [r] and column [c] of the image
    that [render] returns is the directory's pixel at the global position
    ([min_px_x + c], [min_px_y + r]): the pixel at (row mod 256, column mod
    256) of the tile (column // 256, row // 256) when that tile loads, and
    black when it does not. *)
Theorem render_pixels (tile_root : tile_store) (center_lat center_lon : R)
  (zoom width height : Z) :
  tiles_256 tile_root -> 0 <= width -> 0 <= height ->
  exists v img,
    render_viewport center_lat center_lon zoom width height = Ok v /\
    render tile_root center_lat center_lon zoom width height = Ok img /\
    has_shape img height width /\
    forall r c, 0 <= r < height -> 0 <= c < width ->
      px img r c = global_px tile_root zoom (min_px_x v + c) (min_px_y v + r).
Proof.
  intros Hstore Hw Hh. unfold render.
  rewrite render_viewport_eq. cbn [bind].
  match goal with
  | |- context [pixel_window ?cx ?cy width height] =>
      destruct (pixel_window_geometry cx cy width height Hw Hh)
        as [[Hcx [Hfx Htw]] [Hcy [Hfy Hth]]];
      set (v := pixel_window cx cy width height) in *
  end.
  exists v. unfold compose.
  rewrite np_zeros_ok by (unfold TILE_SIZE; lia). cbn [bind].
  destruct (place_tiles_painted tile_root zoom v Hstore eq_refl eq_refl
              (mk_ndarray (tiles_h v * TILE_SIZE) (tiles_w v * TILE_SIZE)
                          (fun _ _ => black)) Htw Hth)
    as [canvas [E [[Hr Hc] Hpx]]].
  { split; [split; reflexivity |].
    intros r c _ _. right. split; [reflexivity | intros []]. }
  rewrite E. cbn [bind].
  rewrite get_slice_crop by (rewrite ?Hr, ?Hc; lia).
  eexists. split; [reflexivity |]. split; [reflexivity |].
  split; [split; reflexivity |].
  intros r c Hrr Hcc. cbn [px].
  destruct (Hpx (crop_y v + r) (crop_x v + c) ltac:(lia) ltac:(lia))
    as [Hg | [_ Hnd]]; [| exfalso; apply Hnd; exact I].
  rewrite Hg. f_equal; subst v; cbn; lia.
Qed.

Lemma render_pixels_witness :
  exists v img,
    render_viewport 52.266862 20.750421 17 200 200 = Ok v /\
    render full_store 52.266862 20.750421 17 200 200 = Ok img /\
    has_shape img 200 200 /\
    forall r c, 0 <= r < 200 -> 0 <= c < 200 ->
      px img r c = global_px full_store 17 (min_px_x v + c) (min_px_y v + r).
Proof.
  apply render_pixels; [exact tiles_256_full | lia | lia].
Defined.

(** ** Which tiles are read *)

Lemma place_tiles_ext_in (fs1 fs2 : tile_store) (zoom : Z) (v : viewport)
  (canvas : ndarray) :
  (forall x y, tile_x_min v <= x <= tile_x_max v ->
               tile_y_min v <= y <= tile_y_max v ->
               _load_tile fs1 zoom x y = _load_tile fs2 zoom x y) ->
  place_tiles fs1 zoom v canvas = place_tiles fs2 zoom v canvas.
Proof.
  intros H. unfold place_tiles.
  apply for_each_ext_in. intros tx c Htx. apply py_range_In in Htx.
  apply for_each_ext_in. intros ty c' Hty. apply py_range_In in Hty.
  rewrite H by lia. reflexivity.
Qed.

(** [render] reads the tiles of its zoom level between [tile_x_min] and
    [tile_x_max], [tile_y_min] and [tile_y_max], and no other: on two
    directories that load the same tiles there, it gives the same result or
    the same exception. *)
Theorem render_reads_covering_tiles (fs1 fs2 : tile_store)
  (center_lat center_lon : R) (zoom width height : Z) (v : viewport) :
  render_viewport center_lat center_lon zoom width height = Ok v ->
  (forall x y, tile_x_min v <= x <= tile_x_max v ->
               tile_y_min v <= y <= tile_y_max v ->
               _load_tile fs1 zoom x y = _load_tile fs2 zoom x y) ->
  render fs1 center_lat center_lon zoom width height =
  render fs2 center_lat center_lon zoom width height.
Proof.
  intros Hv Hagree. unfold render. rewrite Hv. cbn [bind].
  unfold compose.
  destruct (np_zeros _ _) as [canvas | e]; cbn [bind]; [| reflexivity].
  rewrite (place_tiles_ext_in fs1 fs2 zoom v canvas Hagree). reflexivity.
Qed.

Lemma render_reads_covering_tiles_witness :
  render full_store 0 0 0 200 200 = render origin_store 0 0 0 200 200.
Proof.
  apply (render_reads_covering_tiles full_store origin_store 0 0 0 200 200
           (mk_viewport 28 28 228 228 0 0 0 0 1 1 28 28)).
  - exact viewport_origin_zoom0.
  - cbn [tile_x_min tile_x_max tile_y_min tile_y_max]. intros x y Hx Hy.
    assert (x = 0) as -> by lia. assert (y = 0) as -> by lia. reflexivity.
Defined.

(** ** Tiles of the wrong size *)

Lemma place_tiles_keeps_shape (tile_root : tile_store) (zoom : Z) (v : viewport)
  (canvas canvas' : ndarray) :
  place_tiles tile_root zoom v canvas = Ok canvas' ->
  rows canvas' = rows canvas /\ cols canvas' = cols canvas.
Proof.
  unfold place_tiles.
  apply (for_each_ok_inv
           (fun c => rows c = rows canvas /\ cols c = cols canvas));
    [| split; reflexivity].
  intros tx c c1 Hc.
  apply (for_each_ok_inv
           (fun c => rows c = rows canvas /\ cols c = cols canvas));
    [| exact Hc].
  intros ty c2 c3 [Hr Hcc].
  destruct (_load_tile tile_root zoom tx ty) as [tile |].
  - intros Hs. apply set_slice_shape in Hs. lia.
  - intros [= <-]. split; assumption.
Qed.

Lemma place_tiles_raise (tile_root : tile_store) (zoom : Z) (v : viewport)
  (canvas : ndarray) (e : exn) :
  place_tiles tile_root zoom v canvas = Raise e -> e = ValueError.
Proof.
  unfold place_tiles. apply for_each_raise_only.
  intros tx c e'. apply for_each_raise_only.
  intros ty c' e''.
  destruct (_load_tile tile_root zoom tx ty) as [tile |]; [| discriminate].
  apply set_slice_raise.
Qed.

(** When a tile between [tile_x_min] and [tile_x_max], [tile_y_min] and
    [tile_y_max] decodes to an image whose number of rows, or of columns, is
    neither 256 nor 1, [render] raises [ValueError]. *)
Theorem render_wrong_tile_size (tile_root : tile_store)
  (center_lat center_lon : R) (zoom width height : Z) (v : viewport)
  (x y : Z) (tile : ndarray) :
  render_viewport center_lat center_lon zoom width height = Ok v ->
  tile_x_min v <= x <= tile_x_max v ->
  tile_y_min v <= y <= tile_y_max v ->
  _load_tile tile_root zoom x y = Some tile ->
  (rows tile <> 256 /\ rows tile <> 1) \/ (cols tile <> 256 /\ cols tile <> 1) ->
  render tile_root center_lat center_lon zoom width height = Raise ValueError.
Proof.
  intros Hv Hx Hy Hload Hbad. unfold render. rewrite Hv. cbn [bind].
  assert (tiles_w v = tile_x_max v - tile_x_min v + 1 /\
          tiles_h v = tile_y_max v - tile_y_min v + 1) as [Ew Eh].
  { rewrite render_viewport_eq in Hv. injection Hv as <-. split; reflexivity. }
  unfold compose, np_zeros.
  destruct ((tiles_h v * TILE_SIZE <? 0) || (tiles_w v * TILE_SIZE <? 0));
    cbn [bind]; [reflexivity |].
  set (canvas := mk_ndarray _ _ _).
  assert (place_tiles tile_root zoom v canvas = Raise ValueError) as ->;
    [| reflexivity].
  unfold place_tiles.
  apply (for_each_fails
           (fun c => rows c = tiles_h v * TILE_SIZE /\ cols c = tiles_w v * TILE_SIZE))
    with (x0 := x).
  - apply In_py_range. lia.
  - intros tx c c1 Hc.
    apply (for_each_ok_inv
             (fun c => rows c = tiles_h v * TILE_SIZE /\ cols c = tiles_w v * TILE_SIZE));
      [| exact Hc].
    intros ty c2 c3 [Hr Hcc].
    destruct (_load_tile tile_root zoom tx ty) as [t |].
    + intros Hs. apply set_slice_shape in Hs. lia.
    + intros [= <-]. split; assumption.
  - intros tx c e. apply for_each_raise_only.
    intros ty c' e'.
    destruct (_load_tile tile_root zoom tx ty) as [t |]; [| discriminate].
    apply set_slice_raise.
  - intros c Hc.
    apply (for_each_fails
             (fun c => rows c = tiles_h v * TILE_SIZE /\ cols c = tiles_w v * TILE_SIZE))
      with (x0 := y).
    + apply In_py_range. lia.
    + intros ty c2 c3 [Hr Hcc].
      destruct (_load_tile tile_root zoom x ty) as [t |].
      * intros Hs. apply set_slice_shape in Hs. lia.
      * intros [= <-]. split; assumption.
    + intros ty c' e'.
      destruct (_load_tile tile_root zoom x ty) as [t |]; [| discriminate].
      apply set_slice_raise.
    + intros c' [Hr Hcc]. rewrite Hload. unfold set_slice.
      rewrite !slice_index_inside
        by (rewrite ?Hr, ?Hcc, ?Ew, ?Eh; unfold TILE_SIZE; lia).
      rewrite !slice_len_span by (unfold TILE_SIZE; lia).
      unfold broadcastable, TILE_SIZE.
      destruct Hbad as [[H1 H2] | [H1 H2]].
      * apply Z.eqb_neq in H1, H2. rewrite H1, H2. reflexivity.
      * apply Z.eqb_neq in H1, H2. rewrite H1, H2.
        rewrite andb_false_r. reflexivity.
    + exact Hc.
  - split; reflexivity.
Qed.

Lemma render_wrong_tile_size_witness :
  render thumbnail_store 0 0 0 200 200 = Raise ValueError.
Proof.
  apply (render_wrong_tile_size thumbnail_store 0 0 0 200 200
           (mk_viewport 28 28 228 228 0 0 0 0 1 1 28 28) 0 0
           (mk_ndarray 100 100 (fun _ _ => black)));
    [exact viewport_origin_zoom0 | cbn; lia | cbn; lia | reflexivity | cbn; lia].
Defined.

(** ** Negative sizes *)

Lemma negative_extent_empty (m w len : Z) :
  w < 0 ->
  len = ((m + w - 1) / TILE_SIZE - m / TILE_SIZE + 1) * TILE_SIZE ->
  0 <= len ->
  slice_len (slice_index (m - m / TILE_SIZE * TILE_SIZE) len)
            (slice_index (m - m / TILE_SIZE * TILE_SIZE + w) len) = 0.
Proof.
  intros Hw -> Hlen. unfold slice_len, slice_index, TILE_SIZE in *.
  destruct (Z.ltb_spec (m - m / 256 * 256) 0);
    destruct (Z.ltb_spec (m - m / 256 * 256 + w) 0);
    Z.div_mod_to_equations; lia.
Qed.

(** A negative width or height is not turned away: [render] then either
    raises, or returns an image with no column (negative width), with no row
    (negative height). *)
Theorem render_negative_size (tile_root : tile_store)
  (center_lat center_lon : R) (zoom width height : Z) :
  (exists e, render tile_root center_lat center_lon zoom width height = Raise e) \/
  (exists img,
     render tile_root center_lat center_lon zoom width height = Ok img /\
     (width < 0 -> cols img = 0) /\ (height < 0 -> rows img = 0)).
Proof.
  unfold render.
  rewrite render_viewport_eq. cbn [bind].
  match goal with
  | |- context [pixel_window ?cx ?cy width height] =>
      set (v := pixel_window cx cy width height)
  end.
  unfold compose, np_zeros.
  destruct (Z.ltb_spec (tiles_h v * TILE_SIZE) 0) as [| Hh];
    [left; eexists; reflexivity |].
  destruct (Z.ltb_spec (tiles_w v * TILE_SIZE) 0) as [| Hw];
    [left; eexists; reflexivity |].
  cbn [orb bind].
  destruct (place_tiles tile_root zoom v _) as [canvas | e] eqn:E; cbn [bind];
    [| left; eexists; reflexivity].
  right. eexists. split; [reflexivity |].
  apply place_tiles_keeps_shape in E. cbn [rows cols] in E. destruct E as [Er Ec].
  unfold get_slice. cbn [rows cols]. rewrite Er, Ec.
  split; intros Hneg.
  - apply negative_extent_empty; [exact Hneg | reflexivity | exact Hw].
  - apply negative_extent_empty; [exact Hneg | reflexivity | exact Hh].
Qed.

(** ** The window and the centre *)

Lemma Zfloor_Zceil (x : R) : Zfloor x <= Zceil x <= Zfloor x + 1.
Proof.
  pose proof (Zfloor_bound x) as [Hf1 Hf2].
  pose proof (Zceil_bound x) as [Hc1 Hc2].
  split.
  - apply le_IZR. lra.
  - assert (IZR (Zceil x) < IZR (Zfloor x + 2))%R as H
      by (rewrite plus_IZR; lra).
    apply lt_IZR in H. lia.
Qed.

Lemma Zfloor_sub (x : R) (k : Z) : Zfloor (x - IZR k) = Zfloor x - k.
Proof.
  replace (x - IZR k)%R with (x + IZR (- k))%R by (rewrite opp_IZR; lra).
  rewrite Zfloor_addz. lia.
Qed.

Lemma Zceil_sub (x : R) (k : Z) : Zceil (x - IZR k) = Zceil x - k.
Proof.
  replace (x - IZR k)%R with (x + IZR (- k))%R by (rewrite opp_IZR; lra).
  rewrite Zceil_addz. lia.
Qed.

(** One axis: the window holds the pixel under the centre. *)
Lemma axis_holds_centre (c : R) (w : Z) :
  1 <= w -> (2 <= w \/ (0 <= c)%R) ->
  py_int (c - IZR (w / 2)) <= Zfloor c < py_int (c - IZR (w / 2)) + w.
Proof.
  intros Hw Hc.
  pose proof (Zfloor_Zceil c) as Hfc.
  assert (0 <= w / 2 /\ w / 2 + 1 <= w) as [Hh0 Hh1]
    by (Z.div_mod_to_equations; lia).
  unfold py_int. destruct (Rle_dec 0 (c - IZR (w / 2))) as [Hpos | Hneg].
  - rewrite Zfloor_sub. lia.
  - rewrite Zceil_sub.
    destruct Hc as [H2 | H0].
    + assert (1 <= w / 2) by (Z.div_mod_to_equations; lia). lia.
    + assert (w / 2 <> 0) as Hnz.
      { intros E. rewrite E in Hneg. apply Hneg. lra. }
      lia.
Qed.




(** ** How many tiles *)

Lemma axis_tiles_bound (m w : Z) :
  0 < w ->
  (m + w - 1) / TILE_SIZE - m / TILE_SIZE + 1 <= (w - 1) / TILE_SIZE + 2.
Proof.
  intros Hw. unfold TILE_SIZE. Z.div_mod_to_equations. lia.
Qed.

(** For a positive width and height [render] visits at least one tile and
    at most ((width - 1) // 256 + 2) columns and ((height - 1) // 256 + 2)
    rows of tiles; the two loops run over [tiles_w] and [tiles_h] values. *)
Theorem render_tile_count (center_lat center_lon : R) (zoom width height : Z) :
  0 < width -> 0 < height ->
  exists v,
    render_viewport center_lat center_lon zoom width height = Ok v /\
    1 <= tiles_w v <= (width - 1) / 256 + 2 /\
    1 <= tiles_h v <= (height - 1) / 256 + 2 /\
    Z.of_nat (List.length (py_range (tile_x_min v) (tile_x_max v + 1))) = tiles_w v /\
    Z.of_nat (List.length (py_range (tile_y_min v) (tile_y_max v + 1))) = tiles_h v.
Proof.
  intros Hw Hh. rewrite render_viewport_eq. eexists. split; [reflexivity |].
  match goal with
  | |- context [pixel_window ?cx ?cy width height] =>
      set (mx := py_int (cx - IZR (width / 2)));
      set (my := py_int (cy - IZR (height / 2)))
  end.
  cbn [pixel_window tiles_w tiles_h tile_x_min tile_x_max tile_y_min tile_y_max].
  fold mx my.
  pose proof (axis_tiles_pos mx width Hw) as H1.
  pose proof (axis_tiles_pos my height Hh) as H2.
  pose proof (axis_tiles_bound mx width Hw) as H3.
  pose proof (axis_tiles_bound my height Hh) as H4.
  rewrite !py_range_length. unfold TILE_SIZE in *.
  repeat split; lia.
Qed.

Lemma render_tile_count_witness :
  exists v,
    render_viewport 52.266862 20.750421 17 200 200 = Ok v /\
    1 <= tiles_w v <= (200 - 1) / 256 + 2 /\
    1 <= tiles_h v <= (200 - 1) / 256 + 2 /\
    Z.of_nat (List.length (py_range (tile_x_min v) (tile_x_max v + 1))) = tiles_w v /\
    Z.of_nat (List.length (py_range (tile_y_min v) (tile_y_max v + 1))) = tiles_h v.
Proof.
  apply render_tile_count; lia.
Defined.

(** ** The downloader's tile and the renderer's tiles *)

Lemma Zfloor_tile (x : R) : Zfloor (x * IZR TILE_SIZE) / TILE_SIZE = Zfloor x.
Proof.
  unfold TILE_SIZE.
  pose proof (Zfloor_bound x) as [H1 H2].
  pose proof (Zfloor_bound (x * 256)) as [H3 H4].
  assert (Zfloor x * 256 <= Zfloor (x * 256)) as Hlo.
  { apply Zfloor_lub. rewrite mult_IZR. lra. }
  assert (Zfloor (x * 256) < Zfloor x * 256 + 256) as Hhi.
  { apply lt_IZR. rewrite plus_IZR, mult_IZR. lra. }
  Z.div_mod_to_equations. lia.
Qed.

Lemma py_int_nonneg (x : R) : (0 <= x)%R -> py_int x = Zfloor x.
Proof.
  intros H. unfold py_int. destruct (Rle_dec 0 x); [reflexivity | contradiction].
Qed.

(** One axis: the tile under the centre is one of the tiles of the window. *)
Lemma axis_covers_centre_tile (t : R) (w : Z) :
  (0 <= t)%R -> 1 <= w ->
  let m := py_int (t * IZR TILE_SIZE - IZR (w / 2)) in
  m / TILE_SIZE <= py_int t <= (m + w - 1) / TILE_SIZE.
Proof.
  intros Ht Hw m. subst m.
  assert (0 <= t * IZR TILE_SIZE)%R as Hc by (unfold TILE_SIZE; lra).
  pose proof (axis_holds_centre (t * IZR TILE_SIZE) w Hw (or_intror Hc)) as [Hlo Hhi].
  rewrite (py_int_nonneg t Ht), <- (Zfloor_tile t).
  split; apply Z.div_le_mono; unfold TILE_SIZE in *; lia.
Qed.

(** For a point whose fractional tile coordinates are not negative, the tile
    that the downloader computes for the point is one of the tiles that
    [render] reads when it is centred on the point, for every width and
    height of at least 1. *)
Theorem downloaded_tile_is_covered (lat lon : R) (zoom width height : Z)
  (x y : R) :
  latlon_to_tile_fractional lat lon zoom = Ok (x, y) ->
  (0 <= x)%R -> (0 <= y)%R -> 1 <= width -> 1 <= height ->
  exists tx ty v,
    downloader.latlon_to_tile lat lon zoom = Ok (tx, ty) /\
    render_viewport lat lon zoom width height = Ok v /\
    tile_x_min v <= tx <= tile_x_max v /\
    tile_y_min v <= ty <= tile_y_max v.
Proof.
  rewrite latlon_to_tile_fractional_eq. intros [= <- <-] Hx Hy Hw Hh.
  do 3 eexists.
  split; [apply latlon_to_tile_eq |].
  split; [apply render_viewport_eq |].
  cbn [pixel_window tile_x_min tile_x_max tile_y_min tile_y_max].
  split.
  - apply (axis_covers_centre_tile _ width Hx Hw).
  - apply (axis_covers_centre_tile _ height Hy Hh).
Qed.

Lemma downloaded_tile_is_covered_witness :
  exists tx ty v,
    downloader.latlon_to_tile 0 20.750421 17 = Ok (tx, ty) /\
    render_viewport 0 20.750421 17 200 200 = Ok v /\
    tile_x_min v <= tx <= tile_x_max v /\
    tile_y_min v <= ty <= tile_y_max v.
Proof.
  eapply downloaded_tile_is_covered;
    [apply latlon_to_tile_fractional_eq | | | lia | lia].
  - pose proof (pow2_pos 17). nra.
  - rewrite merc_ln_equator. pose proof (pow2_pos 17). pose proof PI_RGT_0.
    replace (0 / PI)%R with 0%R by (field; lra). nra.
Defined.

(** * Paths *)

Lemma string_of_uint_no_sep (d : Decimal.uint) :
  no_sep (list_ascii_of_string (NilEmpty.string_of_uint d)).
Proof.
  unfold no_sep, sep.
  induction d; cbn; [constructor | ..]; (constructor; [discriminate | assumption]).
Qed.

Lemma string_of_int_no_sep (d : Decimal.signed_int) :
  no_sep (list_ascii_of_string (NilZero.string_of_int d)).
Proof.
  assert (forall u, no_sep (list_ascii_of_string (NilZero.string_of_uint u))) as Hu.
  { intros u. destruct u; try apply string_of_uint_no_sep.
    cbn. constructor; [unfold sep; discriminate | constructor]. }
  destruct d as [u | u]; cbn; [apply Hu |].
  constructor; [unfold sep; discriminate | apply Hu].
Qed.

Lemma py_str_no_sep (n : Z) : no_sep (py_str n).
Proof. apply string_of_int_no_sep. Qed.

Lemma py_str_nonempty (n : Z) : py_str n <> [].
Proof.
  unfold py_str.
  destruct n as [| p | p]; cbn; try discriminate.
  destruct (Pos.to_uint p); cbn; discriminate.
Qed.

Lemma list_ascii_of_string_inj (s t : string) :
  list_ascii_of_string s = list_ascii_of_string t -> s = t.
Proof.
  intros H.
  rewrite <- (string_of_list_ascii_of_string s), <- (string_of_list_ascii_of_string t).
  rewrite H. reflexivity.
Qed.

(** [str] is one-to-one on the integers. *)
Lemma py_str_inj (n m : Z) : py_str n = py_str m -> n = m.
Proof.
  unfold py_str. intros H. apply list_ascii_of_string_inj in H.
  apply DecimalZ.to_int_inj.
  assert (forall k, Z.to_int k <> Decimal.Pos Decimal.Nil /\
                    Z.to_int k <> Decimal.Neg Decimal.Nil) as Hnn.
  { intros k. destruct k as [| p | p]; cbn; split; try discriminate;
      intros [= E]; exact (DecimalPos.Unsigned.to_uint_nonnil p E). }
  pose proof (NilZero.isi (Z.to_int n) (proj1 (Hnn n)) (proj2 (Hnn n))) as H1.
  pose proof (NilZero.isi (Z.to_int m) (proj1 (Hnn m)) (proj2 (Hnn m))) as H2.
  rewrite H in H1. rewrite H1 in H2. injection H2 as E. exact E.
Qed.

(** Two lists cut at their first separator are equal part by part. *)
Lemma split_at_sep (a a' r r' : list ascii) :
  no_sep a -> no_sep a' ->
  a ++ sep :: r = a' ++ sep :: r' -> a = a' /\ r = r'.
Proof.
  intros Ha. revert a'.
  induction Ha as [| c a Hc Ha IH]; intros a' Ha' E.
  - destruct Ha' as [| c' a' Hc' Ha']; cbn in E.
    + injection E as E. split; [reflexivity | exact E].
    + injection E as E1 E2. congruence.
  - destruct Ha' as [| c' a' Hc' Ha']; cbn in E.
    + injection E as E1 E2. congruence.
    + injection E as E1 E2. destruct (IH a' Ha' E2) as [-> ->].
      subst c'. split; reflexivity.
Qed.

Lemma startswith_no_sep (s t : list ascii) :
  no_sep s -> s <> [] -> startswith_sep (s ++ t) = false.
Proof.
  intros Hs Hne. destruct Hs as [| c s Hc Hs]; [contradiction |].
  cbn. apply Ascii.eqb_neq. exact Hc.
Qed.

Lemma endswith_no_sep (p s : list ascii) :
  no_sep s -> s <> [] -> endswith_sep (p ++ s) = false.
Proof.
  intros Hs Hne. induction p as [| c p IH].
  - cbn [app].
    induction Hs as [| c s Hc Hs IHs]; [contradiction |].
    cbn [endswith_sep]. destruct s as [| c' s'].
    + apply Ascii.eqb_neq. exact Hc.
    + apply IHs. discriminate.
  - cbn [app endswith_sep].
    destruct (p ++ s) as [| c' q] eqn:E; [| exact IH].
    destruct p; [cbn in E; contradiction | discriminate].
Qed.

Lemma is_empty_app (p s : list ascii) : s <> [] -> is_empty (p ++ s) = false.
Proof.
  intros Hne. destruct p; [destruct s; [contradiction | reflexivity] | reflexivity].
Qed.

Lemma join_step_str (p : list ascii) (n : Z) (t : list ascii) :
  join_step p (py_str n ++ t) = root_prefix p ++ py_str n ++ t.
Proof.
  unfold join_step, root_prefix.
  rewrite (startswith_no_sep _ t (py_str_no_sep n) (py_str_nonempty n)).
  destruct (is_empty p || endswith_sep p); [reflexivity |].
  rewrite <- app_assoc. reflexivity.
Qed.

Lemma root_prefix_str (p : list ascii) (n : Z) :
  root_prefix (p ++ py_str n) = p ++ py_str n ++ [sep].
Proof.
  unfold root_prefix.
  rewrite (is_empty_app p _ (py_str_nonempty n)).
  rewrite (endswith_no_sep p _ (py_str_no_sep n) (py_str_nonempty n)).
  cbn [orb]. rewrite app_assoc. reflexivity.
Qed.

(** The path of a tile, spelled out. *)
Lemma tile_path_eq (tile_root : list ascii) (z x y : Z) :
  _tile_path tile_root z x y =
  root_prefix tile_root ++ py_str z ++ sep :: py_str x ++ sep :: py_str y ++ dot_png.
Proof.
  unfold _tile_path, os_path_join. cbn [fold_left].
  pose proof (join_step_str tile_root z []) as E1. rewrite app_nil_r in E1.
  rewrite E1.
  pose proof (join_step_str (root_prefix tile_root ++ py_str z) x []) as E2.
  rewrite app_nil_r in E2. rewrite E2.
  rewrite join_step_str.
  rewrite !root_prefix_str.
  rewrite <- !app_assoc. cbn [app]. reflexivity.
Qed.

Example tile_path_ex :
  _tile_path (list_ascii_of_string "tiles") 17 74773 43126 =
  list_ascii_of_string "tiles/17/74773/43126.png".
Proof. reflexivity. Qed.

Example tile_path_root_slash :
  _tile_path (list_ascii_of_string "/data/tiles/") 3 (-1) 0 =
  list_ascii_of_string "/data/tiles/3/-1/0.png".
Proof. reflexivity. Qed.

Example tile_path_no_root :
  _tile_path [] 3 4 5 = list_ascii_of_string "3/4/5.png".
Proof. reflexivity. Qed.

Lemma tile_path_inj (tile_root : list ascii) (z x y z' x' y' : Z) :
  _tile_path tile_root z x y = _tile_path tile_root z' x' y' ->
  (z, x, y) = (z', x', y').
Proof.
  intros E. rewrite !tile_path_eq in E.
  apply app_inv_head in E.
  apply split_at_sep in E as [Ez E]; try apply py_str_no_sep.
  apply split_at_sep in E as [Ex E]; try apply py_str_no_sep.
  apply app_inv_tail in E.
  apply py_str_inj in Ez, Ex, E. congruence.
Qed.

(** Two tile addresses that differ have different paths under the same
    root, whatever the root. *)
Theorem tile_path_injective (tile_root : list ascii) (z x y z' x' y' : Z) :
  (z, x, y) <> (z', x', y') ->
  _tile_path tile_root z x y <> _tile_path tile_root z' x' y'.
Proof.
  intros Hne E. apply Hne. apply tile_path_inj in E. exact E.
Qed.

Lemma tile_path_injective_witness :
  _tile_path (list_ascii_of_string "tiles") 17 1 2 <>
  _tile_path (list_ascii_of_string "tiles") 17 2 1.
Proof.
  apply tile_path_injective. discriminate.
Defined.

(** * The downloader *)













Section Download.

Variable srv : downloader.server.
Variable cfg : downloader.config.






End Download.

(** ** From the download to the renderer *)



(** ** What [download_bbox] does to the files *)




(** ** The progress bars *)






(** ** The downloader on concrete inputs *)

Example tile_url_ex :
  downloader.TILE_URL_format 17 74773 43126 =
  list_ascii_of_string
    "https://services.arcgisonline.com/ArcGIS/rest/services/World_Imagery/MapServer/tile/17/43126/74773".
Proof. reflexivity. Qed.

Example download_tile_dead_server :
  let w' := downloader.download_tile dead_server downloader.settings 8 1 2 blank_world in
  downloader.stdout w' = [downloader.FailedLine 8 1 2] /\
  downloader.files w' (list_ascii_of_string "tiles/8/1/2.png") = NoFile.
Proof. split; reflexivity. Qed.

Example download_tile_error_status :
  downloader.stdout
    (downloader.download_tile
       (fun _ => downloader.Response 404 downloader.Garbage)
       downloader.settings 8 1 2 blank_world)
  = [downloader.FailedLine 8 1 2].
Proof. reflexivity. Qed.

Example download_tile_writes :
  downloader.files
    (downloader.download_tile gradient_server downloader.settings 8 1 2 blank_world)
    (list_ascii_of_string "tiles/8/1/2.png")
  = Image gradient_tile.
Proof. reflexivity. Qed.

(** ** The downloader's tile numbers *)

